(** * The consciousness cycle of the Hizawye AI page (src/app/src/App.js)

    A shallow embedding of the [Simulation] component's state and of its
    three state-changing functions ([logToSim], [runSimulationCycle],
    [resetSimulation]), followed by the properties of the cycle.

    Modelling conventions.
    - JS numbers are [Z]: every number the cycle touches is an integer far
      below 2^53, and only [+], [-], [Math.min], [Math.max] and comparisons
      are applied to them.
    - JS strings are [string]; [.] in a regular expression matches every
      character except the line terminators (carriage return and line feed
      in this alphabet).
    - [memory.nodes], a JS object used as a dictionary, is a [gmap]; only own
      properties are modelled, so concept names are taken not to collide with
      the properties every JS object inherits.
    - [Math.random()] is a rational draw handed to the cycle; its contract
      [0 <= rnd < 1] is a hypothesis wherever a property needs it.
    - A [TypeError] raised inside the updater is the [TypeError] completion of
      the [Cycle] monad; the object being mutated ([newData]) is the monad's
      state. *)

From Stdlib Require Import ZArith QArith Qround Ascii.
From stdpp Require Import base option list gmap strings.

Local Open Scope string_scope.
Local Open Scope list_scope.
Local Open Scope Z_scope.

(** ** Data model *)

(** [simData.state] *)
Record Drives := mkDrives { curiosity : Z; boredom : Z; pain : Z }.

(** [simData.goals]: both queues hold goal sentences. *)
Record Goals := mkGoals { active : list string; completed : list string }.

(** A value of [simData.memory.nodes]; the fields are [x], [y], [understood]. *)
Record Node := mkNode { node_x : Z; node_y : Z; understood : bool }.

(** An element of [simData.memory.links]. *)
Record Link := mkLink { source : string; target : string }.

Record Memory := mkMemory { nodes : gmap string Node; links : list Link }.

(** [focus] is [None] when the property holds [undefined]. *)
Record SimData := mkSimData {
  state : Drives;
  goals : Goals;
  memory : Memory;
  focus : option string
}.

Inductive LogType := info | success | warn | critical.

Record LogEntry := mkLogEntry { entry_type : LogType; message : string }.

#[global] Instance LogType_eq_dec : EqDecision LogType.
Proof. solve_decision. Defined.

#[global] Instance LogEntry_eq_dec : EqDecision LogEntry.
Proof. solve_decision. Defined.

(** ** Strings *)

Definition quote : ascii := "'"%char.

(** The characters [.] does not match. *)
Definition is_line_terminator (c : ascii) : bool :=
  Ascii.eqb c "010"%char || Ascii.eqb c "013"%char.

(** [s.startsWith(p)] *)
Fixpoint startsWith (p s : string) : bool :=
  match p, s with
  | EmptyString, _ => true
  | String _ _, EmptyString => false
  | String a p', String b s' => Ascii.eqb a b && startsWith p' s'
  end.

(** [s.includes(needle)] *)
Fixpoint includes (s needle : string) : bool :=
  startsWith needle s ||
  match s with
  | EmptyString => false
  | String _ s' => includes s' needle
  end.

(** The lazy group [(.*?)] followed by the closing quote, tried right after
    an opening quote: the characters up to the next quote, unless a line
    terminator or the end of the string comes first. *)
Fixpoint lazy_body (s : string) : option string :=
  match s with
  | EmptyString => None
  | String c r =>
      if Ascii.eqb c quote then Some EmptyString
      else if is_line_terminator c then None
      else String c <$> lazy_body r
  end.

(** [s.match(/'(.*?)'/)], reduced to its capture group: the leftmost
    position where the pattern matches wins; [None] is JS [null]. *)
Fixpoint match_quoted (s : string) : option string :=
  match s with
  | EmptyString => None
  | String c r =>
      if Ascii.eqb c quote then
        match lazy_body r with
        | Some cap => Some cap
        | None => match_quoted r
        end
      else match_quoted r
  end.

(** Interpolation [`${v}`] of a value that is a string or [undefined]. *)
Definition interpolate (v : option string) : string :=
  match v with Some s => s | None => "undefined" end.

(** The three goal sentences the cycle writes (lines 295, 273 and 304). *)
Definition deepen_goal (sc : string) : string :=
  "Deepen understanding of the concept: '" +:+ sc +:+ "'".

Definition break_down_goal (c : string) : string :=
  "Break down the concept: '" +:+ c +:+ "'".

Definition expand_goal (f : string) : string :=
  "Expand knowledge from '" +:+ f +:+ "'".

(** How the cycle reads a goal sentence back: the dispatch of lines 265 and
    282. A sentence with neither phrase falls through both tests. *)
Inductive GoalKind := DeepenUnderstanding | BreakDownConcept | Unhandled.

Definition goal_kind (goal : string) : GoalKind :=
  if includes goal "Deepen understanding" then DeepenUnderstanding
  else if includes goal "Break down" then BreakDownConcept
  else Unhandled.

Definition goal_concept (goal : string) : option string := match_quoted goal.

(** ** Initial snapshot *)

Definition initial_nodes : gmap string Node :=
  <["belief system" := mkNode 50 20 false]>
  (<["knowledge" := mkNode 20 50 false]>
  (<["delusions" := mkNode 80 50 false]>
  (<["creativity" := mkNode 20 80 false]> ∅))).

Definition initialSimState : SimData :=
  {| state := {| curiosity := 65; boredom := 0; pain := 0 |};
     goals := {| active := [deepen_goal "belief system"]; completed := [] |};
     memory := {| nodes := initial_nodes;
                  links := [ mkLink "knowledge" "belief system";
                             mkLink "belief system" "delusions";
                             mkLink "knowledge" "creativity" ] |};
     focus := Some "belief system" |}.

(** [JSON.parse(JSON.stringify(d))]: a structurally fresh copy. *)
Definition json_clone (d : SimData) : SimData :=
  {| state := {| curiosity := curiosity (state d);
                 boredom := boredom (state d);
                 pain := pain (state d) |};
     goals := {| active := active (goals d); completed := completed (goals d) |};
     memory := {| nodes := nodes (memory d); links := links (memory d) |};
     focus := focus d |}.

(** ** Assignments to the fields of [newData] *)

Definition set_pain (v : Z) (d : SimData) : SimData :=
  {| state := {| curiosity := curiosity (state d);
                 boredom := boredom (state d); pain := v |};
     goals := goals d; memory := memory d; focus := focus d |}.

Definition set_boredom (v : Z) (d : SimData) : SimData :=
  {| state := {| curiosity := curiosity (state d);
                 boredom := v; pain := pain (state d) |};
     goals := goals d; memory := memory d; focus := focus d |}.

Definition set_active (l : list string) (d : SimData) : SimData :=
  {| state := state d;
     goals := {| active := l; completed := completed (goals d) |};
     memory := memory d; focus := focus d |}.

Definition set_completed (l : list string) (d : SimData) : SimData :=
  {| state := state d;
     goals := {| active := active (goals d); completed := l |};
     memory := memory d; focus := focus d |}.

Definition set_nodes (m : gmap string Node) (d : SimData) : SimData :=
  {| state := state d; goals := goals d;
     memory := {| nodes := m; links := links (memory d) |};
     focus := focus d |}.

Definition set_links (l : list Link) (d : SimData) : SimData :=
  {| state := state d; goals := goals d;
     memory := {| nodes := nodes (memory d); links := l |};
     focus := focus d |}.

Definition set_focus (f : option string) (d : SimData) : SimData :=
  {| state := state d; goals := goals d; memory := memory d; focus := f |}.

(** ** The updater's effects

    The body of the function handed to [setSimData] mutates [newData],
    calls [logToSim], and may raise a [TypeError]. [Cycle A] threads the
    object being mutated, collects the [logToSim] calls in order, and stops at
    the first exception. *)

Inductive completion (A : Type) :=
  | Normal (a : A)
  | TypeError.
Arguments Normal {A} a.
Arguments TypeError {A}.

Definition Cycle (A : Type) : Type :=
  SimData -> completion A * SimData * list LogEntry.

Definition ret {A} (a : A) : Cycle A := fun d => (Normal a, d, []).

Definition throw {A} : Cycle A := fun d => (TypeError, d, []).

Definition bind {A B} (m : Cycle A) (k : A -> Cycle B) : Cycle B :=
  fun d =>
    match m d with
    | (Normal a, d1, e1) =>
        match k a d1 with
        | (c, d2, e2) => (c, d2, e1 ++ e2)
        end
    | (TypeError, d1, e1) => (TypeError, d1, e1)
    end.

Declare Scope cycle_scope.
Delimit Scope cycle_scope with cycle.
Notation "x <- m ;; k" := (bind m (fun x => k))
  (at level 20, m at level 99, k at level 200, only parsing) : cycle_scope.
Notation "m ;; k" := (bind m (fun _ => k))
  (at level 100, k at level 200, only parsing, right associativity) : cycle_scope.
Local Open Scope cycle_scope.

(** Read a value out of [newData]. *)
Definition reads {A} (f : SimData -> A) : Cycle A := fun d => (Normal (f d), d, []).

(** An assignment to [newData]. *)
Definition modify (f : SimData -> SimData) : Cycle unit :=
  fun d => (Normal tt, f d, []).

(** A call [logToSim(message, type)]. *)
Definition emit (msg : string) (ty : LogType) : Cycle unit :=
  fun d => (Normal tt, d, [mkLogEntry ty msg]).

(** Property access on a value that may be [undefined] or [null]. *)
Definition deref {A} (v : option A) : Cycle A :=
  match v with Some a => ret a | None => throw end.

(** [l.forEach((a, i) => body)] *)
Fixpoint forEach_from {A} (i : Z) (l : list A) (body : A -> Z -> Cycle unit)
  : Cycle unit :=
  match l with
  | [] => ret tt
  | a :: l' => body a i ;; forEach_from (i + 1) l' body
  end.

Definition forEach {A} (l : list A) (body : A -> Z -> Cycle unit) : Cycle unit :=
  forEach_from 0 l body.

(** [l.join(sep)] *)
Fixpoint join (sep : string) (l : list string) : string :=
  match l with
  | [] => EmptyString
  | [a] => a
  | a :: l' => a +:+ sep +:+ join sep l'
  end.

(** [s === v] for a string [s] and a value that is a string or [undefined]. *)
Definition strict_eq (s : string) (v : option string) : bool :=
  match v with Some t => String.eqb s t | None => false end.

(** [l[k]] for a number [k]. *)
Definition js_index {A} (l : list A) (k : Z) : option A :=
  if k <? 0 then None else l !! Z.to_nat k.

Definition Qltb (a b : Q) : bool :=
  match Qcompare a b with Lt => true | _ => false end.

(** ** The event log *)

(** [l.slice(-n)] for [n > 0]: the last [n] elements. *)
Definition slice_last {A} (n : nat) (l : list A) : list A :=
  drop (length l - n)%nat l.

(** The updater [logToSim] hands to [setLog]. *)
Definition logToSim (msg : string) (ty : LogType) (prevLog : list LogEntry)
  : list LogEntry :=
  slice_last 20 prevLog ++ [mkLogEntry ty msg].

(** ** runSimulationCycle *)

Definition current_focus : Cycle string := reads (fun d => interpolate (focus d)).

(** Lines 267-275. *)
Definition deepen_failure : Cycle unit :=
  emit "LLM response malformed. Rejecting thought." warn ;;
  modify (fun d => set_pain (Z.min 100 (pain (state d) + 25)) d) ;;
  p <- reads (fun d => pain (state d)) ;;
  if 80 <=? p then
    f <- current_focus ;;
    emit ("Pain threshold reached for '" +:+ f +:+ "'. This is too difficult.")
         critical ;;
    emit "New Strategy: Break down the concept." info ;;
    modify (fun d => set_active (tail (active (goals d))) d) ;;
    modify (fun d => set_active (break_down_goal f :: active (goals d)) d) ;;
    modify (set_pain 0)
  else ret tt.

(** Lines 277-280. [shift()] returns the head it removes; the queue is not
    empty on this path (line 258). *)
Definition deepen_success : Cycle unit :=
  f <- current_focus ;;
  emit ("Successfully understood '" +:+ f +:+ "'. Storing memory.") success ;;
  n <- (v <- reads (fun d => nodes (memory d) !! f) ;; deref v) ;;
  modify (fun d =>
    set_nodes (<[f := mkNode (node_x n) (node_y n) true]> (nodes (memory d))) d) ;;
  modify (fun d =>
    match active (goals d) with
    | g :: rest => set_completed (completed (goals d) ++ [g]) (set_active rest d)
    | [] => d
    end) ;;
  modify (fun d => set_pain (Z.max 0 (pain (state d) - 20)) d).

(** Lines 283-296. *)
Definition break_down : Cycle unit :=
  f <- current_focus ;;
  emit ("Successfully broke down '" +:+ f +:+ "'.") success ;;
  let subConcepts := [f +:+ "-A"; f +:+ "-B"] in
  emit ("New sub-concepts discovered: " +:+ join ", " subConcepts) info ;;
  parentNode <- reads (fun d => nodes (memory d) !! f) ;;
  modify (fun d => set_active (tail (active (goals d))) d) ;;
  forEach (reverse subConcepts) (fun sc i =>
    p <- deref parentNode ;;
    modify (fun d =>
      set_nodes (<[sc := mkNode (node_x p + (i * 15 - 10)) (node_y p + 25) false]>
                   (nodes (memory d))) d) ;;
    modify (fun d =>
      set_links (links (memory d) ++ [mkLink (interpolate (focus d)) sc]) d) ;;
    modify (fun d => set_active (deepen_goal sc :: active (goals d)) d)).

(** Lines 307-309. *)
Definition neighbors_of (f : option string) (ls : list Link) : list string :=
  map (fun l => if strict_eq (source l) f then target l else source l)
      (List.filter (fun l => strict_eq (source l) f || strict_eq (target l) f) ls).

(** Lines 299-314. *)
Definition idle (rnd : Q) : Cycle unit :=
  emit "Idle mode. No active goals." info ;;
  modify (fun d => set_boredom (Z.min 100 (boredom (state d) + 15)) d) ;;
  b <- reads (fun d => boredom (state d)) ;;
  if 75 <=? b then
    emit "Boredom threshold reached. Seeking novelty." critical ;;
    modify (fun d =>
      set_active (active (goals d) ++ [expand_goal (interpolate (focus d))]) d) ;;
    modify (set_boredom 0)
  else
    neighbors <- reads (fun d => neighbors_of (focus d) (links (memory d))) ;;
    if (0 <? length neighbors)%nat then
      modify (set_focus
        (js_index neighbors (Qfloor (rnd * inject_Z (Z.of_nat (length neighbors)))))) ;;
      f <- current_focus ;;
      emit ("Mind wanders to: <strong>" +:+ f +:+ "</strong>") info
    else ret tt.

(** Lines 258-315, run on [newData]. *)
Definition cycle_body (rnd : Q) : Cycle unit :=
  act <- reads (fun d => active (goals d)) ;;
  match act with
  | goal :: _ =>
      m <- deref (match_quoted goal) ;;
      modify (set_focus (Some m)) ;;
      f <- current_focus ;;
      emit ("Goal-directed focus: <strong>" +:+ f +:+ "</strong>") info ;;
      p <- reads (fun d => pain (state d)) ;;
      let shouldFail := Qltb rnd (1 # 4) || (50 <? p) in
      if includes goal "Deepen understanding" then
        if shouldFail then deepen_failure else deepen_success
      else if includes goal "Break down" then break_down
      else ret tt
  | [] => idle rnd
  end.

(** What one call of the updater leaves behind. *)
Record Outcome := mkOutcome {
  returned : option SimData;   (* the value of [return newData], if reached *)
  newData : SimData;           (* the private copy when the updater stopped *)
  events : list LogEntry       (* the [logToSim] calls, in order *)
}.

(** The function [runSimulationCycle] hands to [setSimData] (lines 255-317);
    [rnd] is the value [Math.random()] yields in this call. *)
Definition runSimulationCycle (currentData : SimData) (rnd : Q) : Outcome :=
  match cycle_body rnd (json_clone currentData) with
  | (Normal _, d, evs) => {| returned := Some d; newData := d; events := evs |}
  | (TypeError, d, evs) => {| returned := None; newData := d; events := evs |}
  end.

(** ** The component *)

Record Simulation := mkSimulation { simData : SimData; log : list LogEntry }.

(** The double-quote character, for the two messages that contain it. *)
Definition dquote : string := String "034"%char EmptyString.

Definition initial_log : list LogEntry :=
  [mkLogEntry info
     ("Simulation not started. Press " +:+ dquote +:+ "Run Cycle" +:+ dquote +:+ ".")].

Definition reset_log : list LogEntry :=
  [mkLogEntry info
     ("Simulation reset. Press " +:+ dquote +:+ "Run Cycle" +:+ dquote +:+ ".")].

(** [useState(JSON.parse(JSON.stringify(initialSimState)))] and the first log. *)
Definition initial_simulation : Simulation :=
  {| simData := json_clone initialSimState; log := initial_log |}.

(** [setSimData(updater)]: the held state becomes what the updater returns;
    an updater that raises stores nothing. *)
Definition setSimData (updater : SimData -> option SimData) (held : SimData)
  : SimData :=
  match updater held with
  | Some d => d
  | None => held
  end.

(** One press of the Run Cycle button. *)
Definition run_cycle (sim : Simulation) (rnd : Q) : Simulation :=
  {| simData := setSimData (fun d => returned (runSimulationCycle d rnd)) (simData sim);
     log := fold_left (fun l e => logToSim (message e) (entry_type e) l)
                      (events (runSimulationCycle (simData sim) rnd)) (log sim) |}.

(** One press of the Reset button (lines 320-323). *)
Definition resetSimulation (sim : Simulation) : Simulation :=
  {| simData := json_clone initialSimState; log := reset_log |}.

(** The state after a sequence of presses, one draw per press. *)
Definition run_cycles (sim : Simulation) (rnds : list Q) : Simulation :=
  fold_left run_cycle rnds sim.

Definition steps (d : SimData) (rnds : list Q) : SimData :=
  fold_left (fun d rnd => setSimData (fun d => returned (runSimulationCycle d rnd)) d)
            rnds d.

(** The states the button can produce from the initial snapshot, with every
    draw in the range of [Math.random()]. *)
Inductive reachable : SimData -> Prop :=
  | reachable_init : reachable initialSimState
  | reachable_step d rnd d' :
      reachable d ->
      (0 <= rnd)%Q -> (rnd < 1)%Q ->
      returned (runSimulationCycle d rnd) = Some d' ->
      reachable d'.

(** ** Vocabulary of the properties *)

(** [shouldFail] of line 263, as a function of the draw and of [newData]. *)
Definition shouldFail (rnd : Q) (d : SimData) : bool :=
  Qltb rnd (1 # 4) || (50 <? pain (state d)).

(** The log entries the cycle writes. *)
Definition focus_entry (c : string) : LogEntry :=
  mkLogEntry info ("Goal-directed focus: <strong>" +:+ c +:+ "</strong>").

Definition malformed_entry : LogEntry :=
  mkLogEntry warn "LLM response malformed. Rejecting thought.".

Definition pain_entry (c : string) : LogEntry :=
  mkLogEntry critical
    ("Pain threshold reached for '" +:+ c +:+ "'. This is too difficult.").

Definition strategy_entry : LogEntry :=
  mkLogEntry info "New Strategy: Break down the concept.".

Definition understood_entry (c : string) : LogEntry :=
  mkLogEntry success ("Successfully understood '" +:+ c +:+ "'. Storing memory.").

Definition broke_down_entry (c : string) : LogEntry :=
  mkLogEntry success ("Successfully broke down '" +:+ c +:+ "'.").

Definition discovered_entry (c : string) : LogEntry :=
  mkLogEntry info
    ("New sub-concepts discovered: " +:+ join ", " [c +:+ "-A"; c +:+ "-B"]).

Definition idle_entry : LogEntry := mkLogEntry info "Idle mode. No active goals.".

Definition boredom_entry : LogEntry :=
  mkLogEntry critical "Boredom threshold reached. Seeking novelty.".

Definition wander_entry (c : string) : LogEntry :=
  mkLogEntry info ("Mind wanders to: <strong>" +:+ c +:+ "</strong>").

(** A drive value the bar charts can show. *)
Definition in_range (v : Z) : Prop := 0 <= v <= 100.

Definition drives_in_range (s : Drives) : Prop :=
  in_range (curiosity s) /\ in_range (boredom s) /\ in_range (pain s).

(** A name the pattern of line 260 can capture: no quote, no line
    terminator. *)
Fixpoint plain (s : string) : bool :=
  match s with
  | EmptyString => true
  | String c r => negb (Ascii.eqb c quote) && negb (is_line_terminator c) && plain r
  end.

(** Split a sub-concept name into its parent and its letter ([true] for A). *)
Fixpoint split_sub (s : string) : option (string * bool) :=
  match s with
  | EmptyString => None
  | String a r =>
      match split_sub r with
      | Some (p, t) => Some (String a p, t)
      | None =>
          if String.eqb s "-A" then Some (EmptyString, true)
          else if String.eqb s "-B" then Some (EmptyString, false)
          else None
      end
  end.

(** The position line 290 gives the sub-concept with the given letter. *)
Definition sub_x (parent : Node) (is_a : bool) : Z :=
  if is_a then node_x parent + 5 else node_x parent - 10.

Definition sub_y (parent : Node) : Z := node_y parent + 25.

(** Number of entries of a log equal to [e]. *)
Definition count_entry (e : LogEntry) (l : list LogEntry) : nat :=
  length (List.filter (fun e' => bool_decide (e' = e)) l).

Definition count_type (ty : LogType) (l : list LogEntry) : nat :=
  length (List.filter (fun e' => bool_decide (entry_type e' = ty)) l).

(** The names bound in [memory.nodes] after a call and not before it. *)
Definition new_nodes (d d' : SimData) : gset string :=
  dom (nodes (memory d')) ∖ dom (nodes (memory d)).

(** The links appended by a call: what follows the old list. *)
Definition new_links (d d' : SimData) : list Link :=
  drop (length (links (memory d))) (links (memory d')).

(** A state whose head asks to break down [c] while [c-A] is already a node,
    understood and placed elsewhere. *)
Definition crowded_state : SimData :=
  {| state := {| curiosity := 65; boredom := 0; pain := 0 |};
     goals := {| active := [break_down_goal "c"]; completed := [] |};
     memory := {| nodes := <["c" := mkNode 50 20 false]>
                           (<["c-A" := mkNode 10 10 true]> ∅);
                  links := [] |};
     focus := Some "c" |}.

(** The position of the node bound to a name, if any. *)
Definition position (m : gmap string Node) (k : string) : option (Z * Z) :=
  (fun n => (node_x n, node_y n)) <$> m !! k.

(** The suffix line 284 gives the sub-concept with the given letter. *)
Definition sub_suffix (is_a : bool) : string := if is_a then "-A" else "-B".

(** The layout the cycle maintains: a node is a node of the initial snapshot
    at its initial position, or the sub-concept of a node, placed by the
    offsets of lines 290-291 from where its parent is. *)
Definition laid_out (m : gmap string Node) : Prop :=
  forall k n, m !! k = Some n ->
    (exists n0, initial_nodes !! k = Some n0 /\
                node_x n = node_x n0 /\ node_y n = node_y n0) \/
    (exists c p is_a, m !! c = Some p /\ k = c +:+ sub_suffix is_a /\
                      node_x n = sub_x p is_a /\ node_y n = sub_y p).


(** The tests under which the updater looks [c] up in [memory.nodes]: the
    successful attempt at deepening (line 278) and the break-down (lines 286
    and 290). *)
Definition looks_up_node (rnd : Q) (d : SimData) (g : string) : Prop :=
  goal_kind g = BreakDownConcept \/
  goal_kind g = DeepenUnderstanding /\ shouldFail rnd d = false.

(** ** Vocabulary of the further properties *)

(** A string without the quote character. *)
Fixpoint no_quote (s : string) : bool :=
  match s with
  | EmptyString => true
  | String c r => negb (Ascii.eqb c quote) && no_quote r
  end.

(** A concept name the cycle reads back the way it wrote it: it can be
    captured by the pattern of line 260 and contains neither of the phrases
    the dispatch of lines 265 and 282 looks for. *)
Definition clean_name (k : string) : Prop :=
  plain k = true /\
  includes k "Deepen understanding" = false /\
  includes k "Break down" = false.

(** The three sentences for a concept. *)
Definition sentence_of (c g : string) : Prop :=
  g = deepen_goal c \/ g = break_down_goal c \/ g = expand_goal c.

(** What the cycle relies on without testing it: names are clean, links join
    nodes, focus is a node, and every queued goal is a sentence about a
    node. *)
Definition well_formed (d : SimData) : Prop :=
  (forall k, k ∈ dom (nodes (memory d)) -> clean_name k) /\
  (forall l, l ∈ links (memory d) ->
     source l ∈ dom (nodes (memory d)) /\ target l ∈ dom (nodes (memory d))) /\
  (exists f, focus d = Some f /\ f ∈ dom (nodes (memory d))) /\
  (forall g, g ∈ active (goals d) ->
     exists c, c ∈ dom (nodes (memory d)) /\ sentence_of c g).

(** The values the drives take between presses. *)
Definition drives_on_grid (s : Drives) : Prop :=
  curiosity s = 65 /\
  (0 <= boredom s <= 60 /\ boredom s mod 15 = 0) /\
  (0 <= pain s <= 75 /\ pain s mod 5 = 0).

(** [s.split('-')[0]]: the text before the first dash (line 182). *)
Fixpoint first_segment (s : string) : string :=
  match s with
  | EmptyString => EmptyString
  | String c r =>
      if Ascii.eqb c "-"%char then EmptyString else String c (first_segment r)
  end.

(** The text [MemoryMap] writes in the box of a node. *)
Definition node_label (nodeId : string) : string := first_segment nodeId.

(** Line 157: a link is drawn unless one of its ends is not a node. *)
Definition link_drawn (m : Memory) (l : Link) : bool :=
  bool_decide (is_Some (nodes m !! source l)) &&
  bool_decide (is_Some (nodes m !! target l)).

(** Line 171: the boxes [MemoryMap] draws with the class [active]. *)
Definition active_boxes (m : Memory) (f : option string) : list (string * Node) :=
  List.filter (fun entry => strict_eq (fst entry) f) (map_to_list (nodes m)).

(** A string in which the character [a] does not occur. *)
Fixpoint lacks (a : ascii) (s : string) : bool :=
  match s with
  | EmptyString => true
  | String c r => negb (Ascii.eqb c a) && lacks a r
  end.

(** No goal that is still to be attempted or broken down has sub-concepts
    yet: every node is a node of the initial snapshot or the sub-concept of a
    node, the queued goals are about pairwise different concepts, and a
    concept with a deepen or break-down goal in the queue has no node named
    after it with the suffix [-A] or [-B]. *)
Definition unbroken (d : SimData) : Prop :=
  (forall k, k ∈ dom (nodes (memory d)) ->
     k ∈ dom initial_nodes \/
     exists c a, c ∈ dom (nodes (memory d)) /\ k = c +:+ sub_suffix a) /\
  NoDup (goal_concept <$> active (goals d)) /\
  (forall g c a, g ∈ active (goals d) ->
     goal_kind g <> Unhandled ->
     goal_concept g = Some c ->
     c +:+ sub_suffix a ∉ dom (nodes (memory d))).

(** ** Navigation (lines 407-436 and 69-77) *)

(** [s.replace(c, '')] for a one-character pattern: the first occurrence
    goes. *)
Fixpoint remove_first (c : ascii) (s : string) : string :=
  match s with
  | EmptyString => EmptyString
  | String a r => if Ascii.eqb a c then r else String a (remove_first c r)
  end.

(** [handleHashChange]: the section selected for a value of
    [window.location.hash]. *)
Definition handleHashChange (location_hash : string) : string :=
  match remove_first "#" location_hash with
  | EmptyString => "home"
  | hash => hash
  end.

Inductive Page := Home | Architecture | Simulation_page | Findings.

(** [renderSection]: the [switch] of lines 425-435. *)
Definition renderSection (activeSection : string) : Page :=
  if String.eqb activeSection "architecture" then Architecture
  else if String.eqb activeSection "simulation" then Simulation_page
  else if String.eqb activeSection "findings" then Findings
  else Home.

(** The entries of the sidebar, in order, each with the page its [onClick]
    selects. *)
Definition sidebar_entries : list (string * Page) :=
  [("home", Home); ("architecture", Architecture);
   ("simulation", Simulation_page); ("findings", Findings)].

(** The entries [Sidebar] gives the class [active]. *)
Definition highlighted (activeSection : string) : list (string * Page) :=
  List.filter (fun entry => String.eqb activeSection (fst entry)) sidebar_entries.

(** * Properties *)

#[local] Set Warnings "-clear-no-such-hyp".

(** ** Goal sentences *)

Lemma plain_app s t : plain (s +:+ t) = plain s && plain t.
Proof.
  induction s as [|a s IH]; simpl; [done|].
  rewrite IH. by rewrite andb_assoc.
Qed.

Lemma lazy_body_plain c r :
  plain c = true -> lazy_body (c +:+ String quote r) = Some c.
Proof.
  induction c as [|a c IH]; simpl; intros Hp.
  - done.
  - destruct (Ascii.eqb a quote); [done|].
    destruct (is_line_terminator a); [done|].
    simpl in Hp. by rewrite IH.
Qed.

Lemma lazy_body_captures_plain s c : lazy_body s = Some c -> plain c = true.
Proof.
  revert c. induction s as [|a s IH]; simpl; intros c Hc; [done|].
  destruct (Ascii.eqb a quote) eqn:Hq; [by injection Hc as <-|].
  destruct (is_line_terminator a) eqn:Hl; [done|].
  destruct (lazy_body s) as [b|]; [|done].
  injection Hc as <-. simpl. rewrite Hq, Hl. simpl. by apply IH.
Qed.

(** Whatever line 260 captures has no quote and no line terminator in it. *)
Lemma goal_concept_plain g c : goal_concept g = Some c -> plain c = true.
Proof.
  unfold goal_concept. induction g as [|a g IH]; simpl; [done|].
  destruct (Ascii.eqb a quote); [|done].
  destruct (lazy_body g) eqn:Hb; [|done].
  intros [= <-]. by eapply lazy_body_captures_plain.
Qed.

(** The sentences the cycle writes are read back as written. *)
Lemma goal_concept_deepen_goal c :
  plain c = true -> goal_concept (deepen_goal c) = Some c.
Proof.
  intros Hp. unfold goal_concept, deepen_goal. simpl. unfold quote.
  by rewrite (lazy_body_plain c EmptyString Hp
               : lazy_body (EmptyString +:+ (c +:+ "'")) = Some c).
Qed.

Lemma goal_concept_break_down_goal c :
  plain c = true -> goal_concept (break_down_goal c) = Some c.
Proof.
  intros Hp. unfold goal_concept, break_down_goal. simpl. unfold quote.
  by rewrite (lazy_body_plain c EmptyString Hp
               : lazy_body (EmptyString +:+ (c +:+ "'")) = Some c).
Qed.

Lemma goal_concept_expand_goal c :
  plain c = true -> goal_concept (expand_goal c) = Some c.
Proof.
  intros Hp. unfold goal_concept, expand_goal. simpl. unfold quote.
  by rewrite (lazy_body_plain c EmptyString Hp
               : lazy_body (EmptyString +:+ (c +:+ "'")) = Some c).
Qed.

Lemma goal_kind_deepen_goal c : goal_kind (deepen_goal c) = DeepenUnderstanding.
Proof. reflexivity. Qed.

Lemma includes_app_r s t needle :
  includes t needle = true -> includes (s +:+ t) needle = true.
Proof.
  intros Ht. induction s as [|a s IH]; simpl; [done|].
  rewrite IH. by rewrite orb_true_r.
Qed.

(** Sub-concept names. *)
Lemma split_sub_A c : split_sub (c +:+ "-A") = Some (c, true).
Proof. induction c as [|a c IH]; [done|]. simpl. by rewrite IH. Qed.

Lemma split_sub_B c : split_sub (c +:+ "-B") = Some (c, false).
Proof. induction c as [|a c IH]; [done|]. simpl. by rewrite IH. Qed.

Lemma sub_A_inj c c' : c +:+ "-A" = c' +:+ "-A" -> c = c'.
Proof.
  intros H. apply (f_equal split_sub) in H.
  rewrite !split_sub_A in H. congruence.
Qed.

Lemma sub_B_inj c c' : c +:+ "-B" = c' +:+ "-B" -> c = c'.
Proof.
  intros H. apply (f_equal split_sub) in H.
  rewrite !split_sub_B in H. congruence.
Qed.

Lemma sub_A_ne_B c c' : c +:+ "-A" <> c' +:+ "-B".
Proof.
  intros H. apply (f_equal split_sub) in H.
  rewrite split_sub_A, split_sub_B in H. congruence.
Qed.

Lemma string_length_app s t :
  String.length (s +:+ t) = (String.length s + String.length t)%nat.
Proof. induction s as [|a s IH]; simpl; [done|]. by rewrite IH. Qed.

Lemma sub_A_ne_parent c : c +:+ "-A" <> c.
Proof.
  intros H. apply (f_equal String.length) in H.
  rewrite string_length_app in H. simpl in H. lia.
Qed.

Lemma sub_B_ne_parent c : c +:+ "-B" <> c.
Proof.
  intros H. apply (f_equal String.length) in H.
  rewrite string_length_app in H. simpl in H. lia.
Qed.

Lemma plain_sub_A c : plain c = true -> plain (c +:+ "-A") = true.
Proof. intros H. by rewrite plain_app, H. Qed.

Lemma plain_sub_B c : plain c = true -> plain (c +:+ "-B") = true.
Proof. intros H. by rewrite plain_app, H. Qed.

(** A closing quote does not complete a phrase that has no quote in it. *)
Lemma startsWith_snoc_quote needle s :
  plain needle = true ->
  startsWith needle (s +:+ "'") = startsWith needle s.
Proof.
  revert needle. induction s as [|a s IH]; intros [|n ns] Hp; simpl; try done.
  - simpl in Hp. unfold quote in Hp.
    destruct (Ascii.eqb n "'") eqn:E; [done|]. done.
  - simpl in Hp. rewrite IH; [done|].
    by destruct (Ascii.eqb n quote), (is_line_terminator n).
Qed.

Lemma includes_snoc_quote needle s :
  plain needle = true ->
  includes (s +:+ "'") needle = includes s needle.
Proof.
  intros Hp. induction s as [|a s IH].
  - pose proof (startsWith_snoc_quote needle EmptyString Hp) as H.
    change (startsWith needle "'" = startsWith needle EmptyString) in H.
    change (startsWith needle "'" || (startsWith needle EmptyString || false)
            = startsWith needle EmptyString || false).
    rewrite H. by destruct (startsWith needle EmptyString).
  - change (includes (String a s +:+ "'") needle)
      with (startsWith needle (String a s +:+ "'") || includes (s +:+ "'") needle).
    rewrite IH, (startsWith_snoc_quote needle (String a s) Hp). done.
Qed.

(** What the dispatch makes of the sentences the cycle writes, for a concept
    whose name does not itself contain one of the two phrases. *)
Lemma goal_kind_break_down_goal c :
  includes c "Deepen understanding" = false ->
  goal_kind (break_down_goal c) = BreakDownConcept.
Proof.
  intros H. unfold goal_kind, break_down_goal. simpl.
  change (includes (EmptyString +:+ (c +:+ "'")) "Deepen understanding")
    with (includes (c +:+ "'") "Deepen understanding").
  by rewrite includes_snoc_quote, H.
Qed.

Lemma goal_kind_expand_goal c :
  includes c "Deepen understanding" = false ->
  includes c "Break down" = false ->
  goal_kind (expand_goal c) = Unhandled.
Proof.
  intros H1 H2. unfold goal_kind, expand_goal. simpl.
  change (includes (EmptyString +:+ (c +:+ "'")) "Deepen understanding")
    with (includes (c +:+ "'") "Deepen understanding").
  change (includes (EmptyString +:+ (c +:+ "'")) "Break down")
    with (includes (c +:+ "'") "Break down").
  by rewrite !includes_snoc_quote, H1, H2.
Qed.

(** ** What one call of the updater computes, branch by branch *)

Lemma json_clone_id d : json_clone d = d.
Proof. by destruct d as [[] [] [] ?]. Qed.

#[local] Arguments includes : simpl never.
#[local] Arguments match_quoted : simpl never.
#[local] Arguments String.append : simpl never.
#[local] Arguments deepen_goal : simpl never.
#[local] Arguments break_down_goal : simpl never.
#[local] Arguments expand_goal : simpl never.
#[local] Arguments Z.min : simpl never.
#[local] Arguments Z.max : simpl never.
#[local] Arguments Z.add : simpl never.
#[local] Arguments Z.sub : simpl never.
#[local] Arguments Z.mul : simpl never.
#[local] Arguments Z.leb : simpl never.
#[local] Arguments Z.ltb : simpl never.
#[local] Arguments Qltb : simpl never.
#[local] Arguments Qfloor : simpl never.
#[local] Arguments neighbors_of : simpl never.

(** Open the updater on a state whose fields are variables. *)
Ltac open_cycle :=
  unfold runSimulationCycle; rewrite json_clone_id;
  unfold cycle_body, deepen_failure, deepen_success, break_down, idle,
    current_focus, forEach, bind, reads, modify, emit, deref, ret, throw;
  simpl.

Lemma goal_kind_deepen g :
  goal_kind g = DeepenUnderstanding <-> includes g "Deepen understanding" = true.
Proof.
  unfold goal_kind.
  destruct (includes g "Deepen understanding"), (includes g "Break down");
    intuition congruence.
Qed.

Lemma goal_kind_break_down g :
  goal_kind g = BreakDownConcept <->
  includes g "Deepen understanding" = false /\ includes g "Break down" = true.
Proof.
  unfold goal_kind.
  destruct (includes g "Deepen understanding"), (includes g "Break down");
    intuition congruence.
Qed.

Lemma goal_kind_unhandled g :
  goal_kind g = Unhandled <->
  includes g "Deepen understanding" = false /\ includes g "Break down" = false.
Proof.
  unfold goal_kind.
  destruct (includes g "Deepen understanding"), (includes g "Break down");
    intuition congruence.
Qed.

Lemma cycle_unparsed d rnd g rest :
  active (goals d) = g :: rest ->
  goal_concept g = None ->
  runSimulationCycle d rnd = {| returned := None; newData := d; events := [] |}.
Proof.
  unfold goal_concept. intros Ha Hm. open_cycle. rewrite Ha. simpl. by rewrite Hm.
Qed.

Lemma cycle_deepen_fail d rnd g rest c :
  active (goals d) = g :: rest ->
  goal_concept g = Some c ->
  goal_kind g = DeepenUnderstanding ->
  shouldFail rnd d = true ->
  Z.min 100 (pain (state d) + 25) < 80 ->
  runSimulationCycle d rnd =
    let d' := set_pain (Z.min 100 (pain (state d) + 25)) (set_focus (Some c) d) in
    {| returned := Some d'; newData := d';
       events := [focus_entry c; malformed_entry] |}.
Proof.
  unfold goal_concept, shouldFail. intros Ha Hm Hk%goal_kind_deepen Hf Hp.
  open_cycle. rewrite Ha. simpl. rewrite Hm. simpl. rewrite Hk, Hf. simpl.
  destruct (Z.leb_spec 80 (Z.min 100 (pain (state d) + 25))); [lia|]. done.
Qed.

Lemma cycle_deepen_escalate d rnd g rest c :
  active (goals d) = g :: rest ->
  goal_concept g = Some c ->
  goal_kind g = DeepenUnderstanding ->
  shouldFail rnd d = true ->
  80 <= Z.min 100 (pain (state d) + 25) ->
  runSimulationCycle d rnd =
    let d' := set_pain 0 (set_active (break_down_goal c :: rest)
                (set_focus (Some c) d)) in
    {| returned := Some d'; newData := d';
       events := [focus_entry c; malformed_entry; pain_entry c; strategy_entry] |}.
Proof.
  unfold goal_concept, shouldFail. intros Ha Hm Hk%goal_kind_deepen Hf Hp.
  open_cycle. rewrite Ha. simpl. rewrite Hm. simpl. rewrite Hk, Hf. simpl.
  destruct (Z.leb_spec 80 (Z.min 100 (pain (state d) + 25))); [|lia].
  simpl. rewrite Ha. done.
Qed.

Lemma cycle_deepen_success d rnd g rest c n :
  active (goals d) = g :: rest ->
  goal_concept g = Some c ->
  goal_kind g = DeepenUnderstanding ->
  shouldFail rnd d = false ->
  nodes (memory d) !! c = Some n ->
  runSimulationCycle d rnd =
    let d' :=
      set_pain (Z.max 0 (pain (state d) - 20))
        (set_completed (completed (goals d) ++ [g])
          (set_active rest
            (set_nodes (<[c := mkNode (node_x n) (node_y n) true]> (nodes (memory d)))
              (set_focus (Some c) d)))) in
    {| returned := Some d'; newData := d';
       events := [focus_entry c; understood_entry c] |}.
Proof.
  unfold goal_concept, shouldFail. intros Ha Hm Hk%goal_kind_deepen Hf Hn.
  open_cycle. rewrite Ha. simpl. rewrite Hm. simpl. rewrite Hk, Hf. simpl.
  rewrite Hn. simpl. rewrite Ha. done.
Qed.

Lemma cycle_deepen_unknown d rnd g rest c :
  active (goals d) = g :: rest ->
  goal_concept g = Some c ->
  goal_kind g = DeepenUnderstanding ->
  shouldFail rnd d = false ->
  nodes (memory d) !! c = None ->
  runSimulationCycle d rnd =
    {| returned := None; newData := set_focus (Some c) d;
       events := [focus_entry c; understood_entry c] |}.
Proof.
  unfold goal_concept, shouldFail. intros Ha Hm Hk%goal_kind_deepen Hf Hn.
  open_cycle. rewrite Ha. simpl. rewrite Hm. simpl. rewrite Hk, Hf. simpl.
  rewrite Hn. done.
Qed.

Lemma cycle_break_down d rnd g rest c p :
  active (goals d) = g :: rest ->
  goal_concept g = Some c ->
  goal_kind g = BreakDownConcept ->
  nodes (memory d) !! c = Some p ->
  runSimulationCycle d rnd =
    let d' :=
      set_active (deepen_goal (c +:+ "-A") :: deepen_goal (c +:+ "-B") :: rest)
        (set_links (links (memory d) ++
                      [mkLink c (c +:+ "-B"); mkLink c (c +:+ "-A")])
          (set_nodes
            (<[c +:+ "-A" := mkNode (sub_x p true) (sub_y p) false]>
              (<[c +:+ "-B" := mkNode (sub_x p false) (sub_y p) false]>
                (nodes (memory d))))
            (set_focus (Some c) d))) in
    {| returned := Some d'; newData := d';
       events := [focus_entry c; broke_down_entry c; discovered_entry c] |}.
Proof.
  unfold goal_concept. intros Ha Hm [Hk1 Hk2]%goal_kind_break_down Hn.
  open_cycle. rewrite Ha. simpl. rewrite Hm. simpl. rewrite Hk1, Hk2. simpl.
  rewrite Hn. simpl. rewrite Ha. simpl.
  unfold set_active, set_links, set_nodes, set_focus, sub_x, sub_y,
    discovered_entry, broke_down_entry, focus_entry. simpl.
  rewrite <- app_assoc. simpl.
  repeat f_equal; lia.
Qed.

Lemma cycle_break_down_unknown d rnd g rest c :
  active (goals d) = g :: rest ->
  goal_concept g = Some c ->
  goal_kind g = BreakDownConcept ->
  nodes (memory d) !! c = None ->
  runSimulationCycle d rnd =
    {| returned := None; newData := set_active rest (set_focus (Some c) d);
       events := [focus_entry c; broke_down_entry c; discovered_entry c] |}.
Proof.
  unfold goal_concept. intros Ha Hm [Hk1 Hk2]%goal_kind_break_down Hn.
  open_cycle. rewrite Ha. simpl. rewrite Hm. simpl. rewrite Hk1, Hk2. simpl.
  rewrite Hn. simpl. rewrite Ha. done.
Qed.

Lemma cycle_unhandled d rnd g rest c :
  active (goals d) = g :: rest ->
  goal_concept g = Some c ->
  goal_kind g = Unhandled ->
  runSimulationCycle d rnd =
    {| returned := Some (set_focus (Some c) d); newData := set_focus (Some c) d;
       events := [focus_entry c] |}.
Proof.
  unfold goal_concept. intros Ha Hm [Hk1 Hk2]%goal_kind_unhandled.
  open_cycle. rewrite Ha. simpl. rewrite Hm. simpl. by rewrite Hk1, Hk2.
Qed.

Lemma cycle_idle_threshold d rnd :
  active (goals d) = [] ->
  75 <= Z.min 100 (boredom (state d) + 15) ->
  runSimulationCycle d rnd =
    let d' := set_boredom 0
                (set_active [expand_goal (interpolate (focus d))] d) in
    {| returned := Some d'; newData := d';
       events := [idle_entry; boredom_entry] |}.
Proof.
  intros Ha Hb. open_cycle. rewrite Ha. simpl.
  destruct (Z.leb_spec 75 (Z.min 100 (boredom (state d) + 15))); [|lia].
  simpl. rewrite Ha. done.
Qed.

Lemma cycle_idle_wander d rnd :
  active (goals d) = [] ->
  Z.min 100 (boredom (state d) + 15) < 75 ->
  neighbors_of (focus d) (links (memory d)) <> [] ->
  runSimulationCycle d rnd =
    let ns := neighbors_of (focus d) (links (memory d)) in
    let f := js_index ns (Qfloor (rnd * inject_Z (Z.of_nat (length ns)))) in
    let d' := set_focus f (set_boredom (Z.min 100 (boredom (state d) + 15)) d) in
    {| returned := Some d'; newData := d';
       events := [idle_entry; wander_entry (interpolate f)] |}.
Proof.
  intros Ha Hb Hn. open_cycle. rewrite Ha. simpl.
  destruct (Z.leb_spec 75 (Z.min 100 (boredom (state d) + 15))); [lia|].
  simpl. destruct (neighbors_of _ _) eqn:E; [done|]. done.
Qed.

Lemma cycle_idle_still d rnd :
  active (goals d) = [] ->
  Z.min 100 (boredom (state d) + 15) < 75 ->
  neighbors_of (focus d) (links (memory d)) = [] ->
  runSimulationCycle d rnd =
    let d' := set_boredom (Z.min 100 (boredom (state d) + 15)) d in
    {| returned := Some d'; newData := d'; events := [idle_entry] |}.
Proof.
  intros Ha Hb Hn. open_cycle. rewrite Ha. simpl.
  destruct (Z.leb_spec 75 (Z.min 100 (boredom (state d) + 15))); [lia|].
  simpl. by rewrite Hn.
Qed.

(** Every call of the updater falls under exactly one of the lemmas above;
    [cycle_cases d rnd as H] splits on the tests the code makes and leaves,
    in each case, the matching equation as [H]. *)
Ltac cycle_cases_go d rnd Hrun :=
  let g := fresh "g" in let rest := fresh "rest" in let c := fresh "c" in
  let n := fresh "n" in
  let Ha := fresh "Ha" in let Hb := fresh "Hb" in let Hn := fresh "Hn" in
  let Hc := fresh "Hc" in let Hk := fresh "Hk" in let Hf := fresh "Hf" in
  let Hp := fresh "Hp" in
  destruct (active (goals d)) as [|g rest] eqn:Ha;
  [ destruct (Z_lt_le_dec (Z.min 100 (boredom (state d) + 15)) 75) as [Hb|Hb];
    [ destruct (decide (neighbors_of (focus d) (links (memory d)) = [])) as [Hn|Hn];
      [ pose proof (cycle_idle_still d rnd Ha Hb Hn) as Hrun
      | pose proof (cycle_idle_wander d rnd Ha Hb Hn) as Hrun ]
    | pose proof (cycle_idle_threshold d rnd Ha Hb) as Hrun ]
  | destruct (goal_concept g) as [c|] eqn:Hc;
    [ destruct (goal_kind g) eqn:Hk;
      [ destruct (shouldFail rnd d) eqn:Hf;
        [ destruct (Z_lt_le_dec (Z.min 100 (pain (state d) + 25)) 80) as [Hp|Hp];
          [ pose proof (cycle_deepen_fail d rnd g rest c Ha Hc Hk Hf Hp) as Hrun
          | pose proof (cycle_deepen_escalate d rnd g rest c Ha Hc Hk Hf Hp) as Hrun ]
        | destruct (nodes (memory d) !! c) as [n|] eqn:Hn;
          [ pose proof (cycle_deepen_success d rnd g rest c n Ha Hc Hk Hf Hn) as Hrun
          | pose proof (cycle_deepen_unknown d rnd g rest c Ha Hc Hk Hf Hn) as Hrun ] ]
      | destruct (nodes (memory d) !! c) as [n|] eqn:Hn;
        [ pose proof (cycle_break_down d rnd g rest c n Ha Hc Hk Hn) as Hrun
        | pose proof (cycle_break_down_unknown d rnd g rest c Ha Hc Hk Hn) as Hrun ]
      | pose proof (cycle_unhandled d rnd g rest c Ha Hc Hk) as Hrun ]
    | pose proof (cycle_unparsed d rnd g rest Ha Hc) as Hrun ] ];
  simpl in Hrun.

Tactic Notation "cycle_cases" constr(d) constr(rnd) "as" ident(H) :=
  cycle_cases_go d rnd H.

(** ** Drives stay on the charts' scale *)

Lemma cycle_drives_in_range d rnd d' :
  drives_in_range (state d) ->
  returned (runSimulationCycle d rnd) = Some d' ->
  drives_in_range (state d').
Proof.
  unfold drives_in_range, in_range. intros Hd Hret.
  cycle_cases d rnd as Hrun; rewrite Hrun in Hret; simpl in Hret;
    try discriminate; injection Hret as <-; simpl; lia.
Qed.

(** C1. In every state reachable from the initial snapshot by presses of
    Run Cycle, whatever the draws, curiosity, boredom and pain are integers
    between 0 and 100. *)
Theorem reachable_drives_in_range d :
  reachable d ->
  0 <= curiosity (state d) <= 100 /\
  0 <= boredom (state d) <= 100 /\
  0 <= pain (state d) <= 100.
Proof.
  induction 1 as [|d rnd d' _ IH _ _ Hret].
  - simpl. lia.
  - exact (cycle_drives_in_range d rnd d' IH Hret).
Qed.

Lemma reachable_after_one_failure :
  reachable (steps initialSimState [0%Q]).
Proof.
  apply (reachable_step initialSimState 0%Q).
  - apply reachable_init.
  - by vm_compute.
  - by vm_compute.
  - by vm_compute.
Qed.

Lemma reachable_drives_in_range_witness :
  reachable (steps initialSimState [0%Q]) /\
  (0 <= curiosity (state (steps initialSimState [0%Q])) <= 100 /\
   0 <= boredom (state (steps initialSimState [0%Q])) <= 100 /\
   0 <= pain (state (steps initialSimState [0%Q])) <= 100).
Proof.
  split.
  - exact reachable_after_one_failure.
  - apply (reachable_drives_in_range (steps initialSimState [0%Q])).
    exact reachable_after_one_failure.
Defined.

(** ** Repeated failure ends in a change of strategy *)

Lemma shouldFail_zero d : shouldFail 0 d = true.
Proof. reflexivity. Qed.

Lemma fail_below_threshold d g c p :
  active (goals d) = [g] ->
  goal_kind g = DeepenUnderstanding ->
  goal_concept g = Some c ->
  pain (state d) = p -> 0 <= p -> p + 25 < 80 ->
  runSimulationCycle d 0 =
    {| returned := Some (set_pain (p + 25) (set_focus (Some c) d));
       newData := set_pain (p + 25) (set_focus (Some c) d);
       events := [focus_entry c; malformed_entry] |}.
Proof.
  intros Ha Hk Hc Hp H0 H1.
  rewrite (cycle_deepen_fail d 0 g [] c Ha Hc Hk (shouldFail_zero d)) by lia.
  simpl. rewrite Hp. by replace (Z.min 100 (p + 25)) with (p + 25) by lia.
Qed.

Lemma focus_entry_ne_strategy c : focus_entry c <> strategy_entry.
Proof. intros H. apply (f_equal message) in H. cbv in H. discriminate. Qed.

Lemma count_entry_cons e e' l :
  count_entry e (e' :: l) =
    if bool_decide (e' = e) then S (count_entry e l) else count_entry e l.
Proof. unfold count_entry. simpl. by destruct (bool_decide (e' = e)). Qed.

Lemma count_strategy_quiet c :
  count_entry strategy_entry [focus_entry c; malformed_entry] = 0%nat.
Proof.
  rewrite !count_entry_cons.
  rewrite (bool_decide_eq_false_2 _ (focus_entry_ne_strategy c)).
  by rewrite bool_decide_eq_false_2.
Qed.

Lemma count_strategy_escalation c :
  count_entry strategy_entry
    [focus_entry c; malformed_entry; pain_entry c; strategy_entry] = 1%nat.
Proof.
  rewrite !count_entry_cons.
  rewrite (bool_decide_eq_false_2 _ (focus_entry_ne_strategy c)).
  rewrite (bool_decide_eq_false_2 (malformed_entry = _)) by done.
  rewrite (bool_decide_eq_false_2 (pain_entry c = _)) by done.
  by rewrite bool_decide_eq_true_2.
Qed.

(** C2. From a state whose active queue holds one goal read as
    deepen-understanding of [c] and whose pain is 0, with every draw equal to
    0: pain is 25, 50 and 75 after the first three presses, which leave the
    queue alone and log neither a critical entry nor the strategy entry; on
    the fourth press line 268 brings pain to 100, the goal is replaced in
    place by the break-down sentence for [c], pain is reset to 0, and exactly
    one critical entry and one strategy entry are logged. *)
Theorem always_fail_escalates_on_fourth_press d g c :
  active (goals d) = [g] ->
  goal_kind g = DeepenUnderstanding ->
  goal_concept g = Some c ->
  pain (state d) = 0 ->
  let after k := steps d (replicate k 0%Q) in
  let press k := runSimulationCycle (after k) 0 in
  (forall k, (k < 4)%nat -> returned (press k) = Some (after (S k))) /\
  (pain (state (after 1%nat)) = 25 /\
   pain (state (after 2%nat)) = 50 /\
   pain (state (after 3%nat)) = 75) /\
  (forall k, (k < 3)%nat ->
     active (goals (after (S k))) = [g] /\
     events (press k) = [focus_entry c; malformed_entry] /\
     count_type critical (events (press k)) = 0%nat /\
     count_entry strategy_entry (events (press k)) = 0%nat) /\
  Z.min 100 (pain (state (after 3%nat)) + 25) = 100 /\
  active (goals (after 4%nat)) = [break_down_goal c] /\
  goal_concept (break_down_goal c) = Some c /\
  pain (state (after 4%nat)) = 0 /\
  events (press 3%nat) =
    [focus_entry c; malformed_entry; pain_entry c; strategy_entry] /\
  count_type critical (events (press 3%nat)) = 1%nat /\
  count_entry strategy_entry (events (press 3%nat)) = 1%nat.
Proof.
  intros Ha Hk Hc Hp after press.
  set (d1 := set_pain 25 (set_focus (Some c) d)).
  set (d2 := set_pain 50 (set_focus (Some c) d1)).
  set (d3 := set_pain 75 (set_focus (Some c) d2)).
  set (d4 := set_pain 0 (set_active [break_down_goal c] (set_focus (Some c) d3))).
  assert (H1 : runSimulationCycle d 0 =
    {| returned := Some d1; newData := d1;
       events := [focus_entry c; malformed_entry] |})
    by (apply (fail_below_threshold d g c 0); (done || lia)).
  assert (H2 : runSimulationCycle d1 0 =
    {| returned := Some d2; newData := d2;
       events := [focus_entry c; malformed_entry] |})
    by (apply (fail_below_threshold d1 g c 25); (done || lia)).
  assert (H3 : runSimulationCycle d2 0 =
    {| returned := Some d3; newData := d3;
       events := [focus_entry c; malformed_entry] |})
    by (apply (fail_below_threshold d2 g c 50); (done || lia)).
  assert (H4 : runSimulationCycle d3 0 =
    {| returned := Some d4; newData := d4;
       events := [focus_entry c; malformed_entry; pain_entry c; strategy_entry] |}).
  { rewrite (cycle_deepen_escalate d3 0 g [] c); simpl; (done || lia). }
  assert (A1 : after 1%nat = d1) by (unfold after, steps, setSimData; simpl; by rewrite H1).
  assert (A2 : after 2%nat = d2)
    by (unfold after, steps, setSimData; simpl; rewrite H1; simpl; by rewrite H2).
  assert (A3 : after 3%nat = d3)
    by (unfold after, steps, setSimData; simpl; rewrite H1; simpl; rewrite H2; simpl;
        by rewrite H3).
  assert (A4 : after 4%nat = d4)
    by (unfold after, steps, setSimData; simpl; rewrite H1; simpl; rewrite H2; simpl;
        rewrite H3; simpl; by rewrite H4).
  assert (A0 : after 0%nat = d) by done.
  assert (Hcount : count_type critical [focus_entry c; malformed_entry] = 0%nat /\
                   count_entry strategy_entry [focus_entry c; malformed_entry] = 0%nat).
  { split; [done|]. apply count_strategy_quiet. }
  split.
  { intros k Hlt. unfold press.
    destruct k as [|[|[|[|k]]]]; [| | | |lia].
    - by rewrite A0, A1, H1.
    - by rewrite A1, A2, H2.
    - by rewrite A2, A3, H3.
    - by rewrite A3, A4, H4. }
  split; [by rewrite A1, A2, A3|].
  split.
  { intros k Hlt. unfold press.
    destruct k as [|[|[|k]]]; [| | |lia].
    - by rewrite A0, A1, H1.
    - by rewrite A1, A2, H2.
    - by rewrite A2, A3, H3. }
  unfold press. rewrite A3, A4, H4. simpl.
  split; [done|]. split; [done|].
  split; [by eapply goal_concept_break_down_goal, goal_concept_plain|].
  split; [done|]. split; [done|]. split; [done|].
  apply count_strategy_escalation.
Qed.

Lemma always_fail_escalates_on_fourth_press_witness :
  let d := initialSimState in
  let after k := steps d (replicate k 0%Q) in
  let press k := runSimulationCycle (after k) 0 in
  (forall k, (k < 4)%nat -> returned (press k) = Some (after (S k))) /\
  (pain (state (after 1%nat)) = 25 /\
   pain (state (after 2%nat)) = 50 /\
   pain (state (after 3%nat)) = 75) /\
  (forall k, (k < 3)%nat ->
     active (goals (after (S k))) = [deepen_goal "belief system"] /\
     events (press k) = [focus_entry "belief system"; malformed_entry] /\
     count_type critical (events (press k)) = 0%nat /\
     count_entry strategy_entry (events (press k)) = 0%nat) /\
  Z.min 100 (pain (state (after 3%nat)) + 25) = 100 /\
  active (goals (after 4%nat)) = [break_down_goal "belief system"] /\
  goal_concept (break_down_goal "belief system") = Some "belief system" /\
  pain (state (after 4%nat)) = 0 /\
  events (press 3%nat) =
    [focus_entry "belief system"; malformed_entry; pain_entry "belief system";
     strategy_entry] /\
  count_type critical (events (press 3%nat)) = 1%nat /\
  count_entry strategy_entry (events (press 3%nat)) = 1%nat.
Proof.
  apply (always_fail_escalates_on_fourth_press initialSimState
           (deepen_goal "belief system") "belief system"); reflexivity.
Defined.

(** ** Breaking a concept down *)

(** C3, as stated, fails: when a node named [c-A] already exists, the
    break-down step overwrites it, so only one name is new. *)
Lemma break_down_may_add_one_node :
  ~ (forall d rnd g rest c p d',
       active (goals d) = g :: rest ->
       goal_kind g = BreakDownConcept ->
       goal_concept g = Some c ->
       nodes (memory d) !! c = Some p ->
       returned (runSimulationCycle d rnd) = Some d' ->
       size (new_nodes d d') = 2%nat).
Proof.
  intros H.
  specialize (H crowded_state 0%Q (break_down_goal "c") [] "c" (mkNode 50 20 false)
                (default crowded_state (returned (runSimulationCycle crowded_state 0)))).
  assert (Hsize : size (new_nodes crowded_state
            (default crowded_state (returned (runSimulationCycle crowded_state 0))))
          = 1%nat) by (by vm_compute).
  rewrite Hsize in H. by discriminate H.
Qed.

(** C3, amended. Whenever the head of the queue is read as break-down of
    [c] and [c] is a node, one press returns a state in which: that goal is
    gone from [active] and [completed] is as before; the names [c-A] and [c-B]
    are bound to not-understood nodes placed below the parent, every other
    name keeping its node, and these are exactly two new names when neither
    was a node before; exactly two links were appended, both with source [c];
    and the queue now starts with the deepen goals of [c-A] and [c-B], in
    this order, ahead of the goals that were waiting. *)
Theorem break_down_step d rnd g rest c p :
  active (goals d) = g :: rest ->
  goal_kind g = BreakDownConcept ->
  goal_concept g = Some c ->
  nodes (memory d) !! c = Some p ->
  exists d',
    returned (runSimulationCycle d rnd) = Some d' /\
    active (goals d') =
      deepen_goal (c +:+ "-A") :: deepen_goal (c +:+ "-B") :: rest /\
    completed (goals d') = completed (goals d) /\
    (goal_kind (deepen_goal (c +:+ "-A")) = DeepenUnderstanding /\
     goal_concept (deepen_goal (c +:+ "-A")) = Some (c +:+ "-A") /\
     goal_kind (deepen_goal (c +:+ "-B")) = DeepenUnderstanding /\
     goal_concept (deepen_goal (c +:+ "-B")) = Some (c +:+ "-B")) /\
    nodes (memory d') =
      <[c +:+ "-A" := mkNode (node_x p + 5) (node_y p + 25) false]>
        (<[c +:+ "-B" := mkNode (node_x p - 10) (node_y p + 25) false]>
           (nodes (memory d))) /\
    new_nodes d d' ⊆ {[c +:+ "-A"; c +:+ "-B"]} /\
    (nodes (memory d) !! (c +:+ "-A") = None ->
     nodes (memory d) !! (c +:+ "-B") = None ->
     new_nodes d d' = {[c +:+ "-A"; c +:+ "-B"]} /\
     size (new_nodes d d') = 2%nat /\
     size (nodes (memory d')) = (size (nodes (memory d)) + 2)%nat) /\
    links (memory d') =
      links (memory d) ++ [mkLink c (c +:+ "-B"); mkLink c (c +:+ "-A")] /\
    new_links d d' = [mkLink c (c +:+ "-B"); mkLink c (c +:+ "-A")] /\
    state d' = state d /\
    focus d' = Some c.
Proof.
  intros Ha Hk Hc Hn.
  pose proof (goal_concept_plain g c Hc) as Hplain.
  pose proof (sub_A_ne_B c c) as HAB.
  rewrite (cycle_break_down d rnd g rest c p Ha Hc Hk Hn). simpl.
  eexists. split; [reflexivity|]. simpl. unfold sub_x, sub_y.
  split; [done|]. split; [done|].
  split.
  { split; [done|]. split; [by apply goal_concept_deepen_goal, plain_sub_A|].
    split; [done|]. by apply goal_concept_deepen_goal, plain_sub_B. }
  split; [done|].
  split.
  { unfold new_nodes. simpl. rewrite !dom_insert_L. set_solver. }
  split.
  { intros HA HB. unfold new_nodes. simpl.
    apply not_elem_of_dom in HA, HB.
    assert (Hnew : dom (<[c +:+ "-A" := mkNode (node_x p + 5) (node_y p + 25) false]>
                     (<[c +:+ "-B" := mkNode (node_x p - 10) (node_y p + 25) false]>
                        (nodes (memory d)))) ∖ dom (nodes (memory d))
                   = {[c +:+ "-A"; c +:+ "-B"]})
      by (rewrite !dom_insert_L; set_solver).
    split; [done|]. split.
    - rewrite Hnew. rewrite size_union by set_solver.
      by rewrite !size_singleton.
    - rewrite map_size_insert_None.
      + rewrite map_size_insert_None by by apply not_elem_of_dom. lia.
      + rewrite lookup_insert_ne by done. by apply not_elem_of_dom. }
  split; [done|].
  split; [|done].
  unfold new_links. simpl. by rewrite drop_app_length.
Qed.

Lemma break_down_step_witness :
  let d := steps initialSimState (replicate 4 0%Q) in
  active (goals d) = [break_down_goal "belief system"] /\
  goal_kind (break_down_goal "belief system") = BreakDownConcept /\
  goal_concept (break_down_goal "belief system") = Some "belief system" /\
  nodes (memory d) !! "belief system" = Some (mkNode 50 20 false) /\
  exists d',
    returned (runSimulationCycle d (1 # 2)) = Some d' /\
    active (goals d') =
      [deepen_goal "belief system-A"; deepen_goal "belief system-B"] /\
    completed (goals d') = [] /\
    nodes (memory d') !! "belief system-A" = Some (mkNode 55 45 false) /\
    nodes (memory d') !! "belief system-B" = Some (mkNode 40 45 false) /\
    size (new_nodes d d') = 2%nat.
Proof.
  intros d.
  assert (Ha : active (goals d) = [break_down_goal "belief system"]) by reflexivity.
  assert (Hk : goal_kind (break_down_goal "belief system") = BreakDownConcept)
    by reflexivity.
  assert (Hc : goal_concept (break_down_goal "belief system") = Some "belief system")
    by reflexivity.
  assert (Hn : nodes (memory d) !! "belief system" = Some (mkNode 50 20 false))
    by (by vm_compute).
  repeat (split; [assumption|]).
  destruct (break_down_step d (1 # 2) _ _ _ _ Ha Hk Hc Hn)
    as (d' & Hret & Hact & Hcomp & _ & Hnodes & _ & Hfresh & _).
  exists d'. split; [exact Hret|]. split; [exact Hact|]. split; [exact Hcomp|].
  rewrite Hnodes.
  split; [by rewrite lookup_insert_eq|].
  split; [by rewrite lookup_insert_ne, lookup_insert_eq|].
  apply Hfresh; by vm_compute.
Defined.

(** ** Where the nodes are *)

Lemma steps_snoc d rnds rnd :
  steps d (rnds ++ [rnd]) =
  setSimData (fun d => returned (runSimulationCycle d rnd)) (steps d rnds).
Proof. unfold steps. by rewrite fold_left_app. Qed.

Lemma reachable_steps d rnds :
  reachable d ->
  Forall (fun rnd => (0 <= rnd)%Q /\ (rnd < 1)%Q) rnds ->
  reachable (steps d rnds).
Proof.
  intros Hd Hr. induction rnds as [|rnd rnds IH] using rev_ind; [done|].
  apply Forall_app in Hr as [Hr [[H0 H1] _]%Forall_cons].
  rewrite steps_snoc. unfold setSimData.
  destruct (returned (runSimulationCycle (steps d rnds) rnd)) as [d'|] eqn:E.
  - by eapply reachable_step; [apply IH| | |exact E].
  - by apply IH.
Qed.

Lemma reachable_all_fail k : reachable (steps initialSimState (replicate k 0%Q)).
Proof.
  apply reachable_steps; [apply reachable_init|].
  apply Forall_replicate. by split.
Qed.

(** C4, as stated, fails: twenty presses that all draw 0 break
    ['belief system'] down four levels deep, and the fourth level is placed
    at [y = 120]. *)
Lemma deep_sub_concept_leaves_the_map :
  ~ (forall d, reachable d ->
       forall k n, nodes (memory d) !! k = Some n ->
         0 <= node_x n <= 100 /\ 0 <= node_y n <= 100).
Proof.
  intros H.
  destruct (H (steps initialSimState (replicate 20 0%Q)) (reachable_all_fail 20)
              "belief system-A-A-A-A" (mkNode 70 120 false)) as [_ Hy].
  - by vm_compute.
  - simpl in Hy. lia.
Qed.

Lemma initial_nodes_names k n :
  initial_nodes !! k = Some n ->
  k = "belief system" \/ k = "knowledge" \/ k = "delusions" \/ k = "creativity".
Proof.
  intros H%elem_of_dom_2. unfold initial_nodes in H.
  rewrite !dom_insert_L, dom_empty_L in H. set_solver.
Qed.

Lemma initial_nodes_in_range k n :
  initial_nodes !! k = Some n ->
  0 <= node_x n <= 100 /\ 0 <= node_y n <= 100.
Proof.
  intros H. destruct (initial_nodes_names k n H) as [-> | [-> | [-> | ->]]];
    vm_compute in H; injection H as <-; simpl; lia.
Qed.

Lemma initial_nodes_not_sub c is_a : initial_nodes !! (c +:+ sub_suffix is_a) = None.
Proof.
  destruct (initial_nodes !! (c +:+ sub_suffix is_a)) as [n|] eqn:E; [|done].
  apply initial_nodes_names in E.
  assert (Hs : split_sub (c +:+ sub_suffix is_a) = Some (c, is_a))
    by (destruct is_a; [apply split_sub_A|apply split_sub_B]).
  destruct E as [E|[E|[E|E]]]; rewrite E in Hs; by vm_compute in Hs.
Qed.

Lemma sub_suffix_inj c c' a a' :
  c +:+ sub_suffix a = c' +:+ sub_suffix a' -> c = c' /\ a = a'.
Proof.
  intros H. apply (f_equal split_sub) in H.
  destruct a, a'; simpl in H;
    rewrite ?split_sub_A, ?split_sub_B in H; by injection H.
Qed.

Lemma sub_suffix_ne_parent c a : c +:+ sub_suffix a <> c.
Proof. destruct a; [apply sub_A_ne_parent|apply sub_B_ne_parent]. Qed.

Lemma laid_out_initial : laid_out initial_nodes.
Proof. intros k n H. left. by exists n. Qed.

(** Marking a node understood moves nothing. *)
Lemma laid_out_understood m c n :
  m !! c = Some n ->
  laid_out m ->
  laid_out (<[c := mkNode (node_x n) (node_y n) true]> m).
Proof.
  intros Hc Hm k n' Hk.
  assert (Hpos : exists n1, m !! k = Some n1 /\
            node_x n' = node_x n1 /\ node_y n' = node_y n1).
  { destruct (decide (k = c)) as [->|Hne].
    - rewrite lookup_insert_eq in Hk. injection Hk as <-. by exists n.
    - rewrite lookup_insert_ne in Hk by done. by exists n'. }
  destruct Hpos as (n1 & Hk1 & Hx & Hy). rewrite Hx, Hy.
  destruct (Hm k n1 Hk1) as [?|(c0 & p0 & a & Hc0 & -> & Hx0 & Hy0)]; [by left|].
  right. destruct (decide (c0 = c)) as [->|Hne].
  - exists c, (mkNode (node_x n) (node_y n) true), a.
    rewrite lookup_insert_eq. rewrite Hc in Hc0. injection Hc0 as ->.
    by destruct a.
  - exists c0, p0, a. by rewrite lookup_insert_ne.
Qed.

(** Placing one sub-concept of a node keeps the layout, also when the name
    was already bound: it was then bound at the same place. *)
Lemma laid_out_sub m c p a :
  m !! c = Some p ->
  laid_out m ->
  laid_out (<[c +:+ sub_suffix a := mkNode (sub_x p a) (sub_y p) false]> m).
Proof.
  intros Hc Hm k n Hk.
  pose proof (sub_suffix_ne_parent c a) as Hcne.
  destruct (decide (k = c +:+ sub_suffix a)) as [->|Hne].
  - rewrite lookup_insert_eq in Hk. injection Hk as <-.
    right. exists c, p, a. by rewrite lookup_insert_ne.
  - rewrite lookup_insert_ne in Hk by done.
    destruct (Hm k n Hk) as [?|(c0 & p0 & a0 & Hc0 & -> & Hx0 & Hy0)]; [by left|].
    right. destruct (decide (c0 = c +:+ sub_suffix a)) as [->|Hne0].
    + exists (c +:+ sub_suffix a), (mkNode (sub_x p a) (sub_y p) false), a0.
      rewrite lookup_insert_eq. split; [done|]. split; [done|].
      rewrite Hx0, Hy0.
      destruct (Hm _ _ Hc0) as [(n0 & Hn0 & _)|(c1 & p1 & a1 & Hc1 & He & Hx1 & Hy1)].
      * by rewrite initial_nodes_not_sub in Hn0.
      * apply sub_suffix_inj in He as [<- <-].
        rewrite Hc in Hc1. injection Hc1 as <-.
        unfold sub_x, sub_y in *. simpl. destruct a0; lia.
    + exists c0, p0, a0. by rewrite lookup_insert_ne.
Qed.

Lemma cycle_laid_out d rnd d' :
  laid_out (nodes (memory d)) ->
  returned (runSimulationCycle d rnd) = Some d' ->
  laid_out (nodes (memory d')).
Proof.
  intros Hd Hret.
  cycle_cases d rnd as Hrun; rewrite Hrun in Hret; simpl in Hret;
    try discriminate; injection Hret as <-; simpl; try done.
  - by apply laid_out_understood.
  - apply (laid_out_sub _ c n true).
    + rewrite lookup_insert_ne; [done|]. apply (sub_suffix_ne_parent c false).
    + by apply (laid_out_sub _ c n false).
Qed.

(** C4, amended. In every reachable state each node is either a node of the
    initial snapshot at its initial position, which lies in [0,100]x[0,100],
    or the sub-concept [c-A] (resp. [c-B]) of a node [c], placed 5 to the
    right (resp. 10 to the left) of its parent and 25 below it. Nothing clamps
    these offsets. *)
Theorem reachable_nodes_laid_out d :
  reachable d ->
  forall k n, nodes (memory d) !! k = Some n ->
    (exists n0, initial_nodes !! k = Some n0 /\
       node_x n = node_x n0 /\ node_y n = node_y n0 /\
       0 <= node_x n <= 100 /\ 0 <= node_y n <= 100) \/
    (exists c p,
       nodes (memory d) !! c = Some p /\
       (k = c +:+ "-A" /\ node_x n = node_x p + 5 /\ node_y n = node_y p + 25 \/
        k = c +:+ "-B" /\ node_x n = node_x p - 10 /\ node_y n = node_y p + 25)).
Proof.
  intros Hd.
  assert (Hl : laid_out (nodes (memory d))).
  { induction Hd as [|d rnd d' _ IH _ _ Hret]; [apply laid_out_initial|].
    by eapply cycle_laid_out. }
  intros k n Hk.
  destruct (Hl k n Hk) as [(n0 & Hn0 & Hx & Hy)|(c & p & a & Hc & -> & Hx & Hy)].
  - left. exists n0. rewrite Hx, Hy.
    by pose proof (initial_nodes_in_range k n0 Hn0).
  - right. exists c, p. split; [done|].
    unfold sub_x, sub_y in *. destruct a; [left|right]; done.
Qed.

Lemma reachable_nodes_laid_out_witness :
  let d := steps initialSimState (replicate 5 0%Q) in
  reachable d /\
  nodes (memory d) !! "belief system-B" = Some (mkNode 40 45 false) /\
  ((exists n0, initial_nodes !! "belief system-B" = Some n0 /\
      40 = node_x n0 /\ 45 = node_y n0 /\ 0 <= 40 <= 100 /\ 0 <= 45 <= 100) \/
   (exists c p,
      nodes (memory d) !! c = Some p /\
      ("belief system-B" = c +:+ "-A" /\ 40 = node_x p + 5 /\ 45 = node_y p + 25 \/
       "belief system-B" = c +:+ "-B" /\ 40 = node_x p - 10 /\ 45 = node_y p + 25))).
Proof.
  intros d.
  assert (Hn : nodes (memory d) !! "belief system-B" = Some (mkNode 40 45 false))
    by (by vm_compute).
  split; [apply (reachable_all_fail 5)|]. split; [exact Hn|].
  exact (reachable_nodes_laid_out d (reachable_all_fail 5)
           "belief system-B" (mkNode 40 45 false) Hn).
Defined.

(** ** Focus *)

(** C5, as stated, fails: after five presses that all draw 0 the queue is
    headed by the deepen goal of ['belief system-A'] while focus still names
    ['belief system'], the concept that was just broken down. *)
Lemma focus_lags_behind_new_head :
  ~ (forall d, reachable d ->
       forall g rest, active (goals d) = g :: rest ->
         focus d = goal_concept g).
Proof.
  intros H.
  specialize (H (steps initialSimState (replicate 5 0%Q)) (reachable_all_fail 5)
                (deepen_goal "belief system-A") [deepen_goal "belief system-B"]).
  vm_compute in H. by specialize (H eq_refl).
Qed.

(** C5, amended. A press that starts with a non-empty queue and returns a
    state leaves focus on the concept of the goal that headed the queue when
    the press began. When that goal was not resolved (a failed attempt at
    deepening, or a goal of a kind the cycle does not handle), the returned
    queue is headed by a goal of that same concept, so focus names the
    concept of the returned head. *)
Theorem focus_names_head_at_start d rnd g rest d' :
  active (goals d) = g :: rest ->
  returned (runSimulationCycle d rnd) = Some d' ->
  is_Some (goal_concept g) /\
  focus d' = goal_concept g /\
  (goal_kind g = Unhandled \/
   goal_kind g = DeepenUnderstanding /\ shouldFail rnd d = true ->
   exists g' rest',
     active (goals d') = g' :: rest' /\ focus d' = goal_concept g').
Proof.
  intros Hact Hret.
  cycle_cases d rnd as Hrun; rewrite Hrun in Hret; simpl in Hret;
    try discriminate; injection Hret as <-; simpl;
    injection Hact as <- <-; rewrite Hc;
    (split; [done|]); (split; [done|]); intros Hres.
  - exists g0, rest0. by rewrite <- Hc.
  - exists (break_down_goal c), rest0. split; [done|].
    symmetry. by eapply goal_concept_break_down_goal, goal_concept_plain.
  - destruct Hres as [?|[_ ?]]; congruence.
  - destruct Hres as [?|[? _]]; congruence.
  - exists g0, rest0. by rewrite <- Hc.
Qed.

Lemma focus_names_head_at_start_witness :
  let d := initialSimState in
  let d' := steps initialSimState [0%Q] in
  active (goals d) = [deepen_goal "belief system"] /\
  returned (runSimulationCycle d 0) = Some d' /\
  focus d' = Some "belief system" /\
  exists g' rest',
    active (goals d') = g' :: rest' /\ focus d' = goal_concept g'.
Proof.
  intros d d'.
  assert (Ha : active (goals d) = [deepen_goal "belief system"]) by reflexivity.
  assert (Hr : returned (runSimulationCycle d 0) = Some d') by reflexivity.
  destruct (focus_names_head_at_start d 0%Q _ _ d' Ha Hr) as (_ & Hf & Hh).
  split; [exact Ha|]. split; [exact Hr|]. split; [exact Hf|].
  apply Hh. right. split; reflexivity.
Defined.

(** ** A press that raises changes nothing *)

(** The updater raises only for a head it cannot parse or whose concept it
    looks up in vain. *)
Lemma cycle_raises_only_when d rnd :
  returned (runSimulationCycle d rnd) = None ->
  exists g rest,
    active (goals d) = g :: rest /\
    (goal_concept g = None \/
     exists c, goal_concept g = Some c /\ nodes (memory d) !! c = None /\
               looks_up_node rnd d g).
Proof.
  intros Hret. unfold looks_up_node.
  cycle_cases d rnd as Hrun; rewrite Hrun in Hret; simpl in Hret;
    try discriminate; exists g, rest; (split; [done|]); [right|right|left];
    try done; exists c; auto.
Qed.



(** ** Understanding a concept *)

Lemma Qltb_ge a b : (b <= a)%Q -> Qltb a b = false.
Proof.
  intros Hle. unfold Qltb.
  destruct (a ?= b)%Q eqn:E; try done.
  apply Qlt_alt in E. by apply Qle_not_lt in Hle.
Qed.

Lemma shouldFail_false rnd d :
  (1 # 4 <= rnd)%Q -> pain (state d) <= 50 -> shouldFail rnd d = false.
Proof.
  intros Hr Hp. unfold shouldFail. rewrite (Qltb_ge _ _ Hr). simpl.
  by apply Z.ltb_ge.
Qed.

(** C7. When the head of the queue is read as deepen-understanding of [c],
    [c] is a node, the draw is at least 0.25 and pain is at most 50, one
    press returns a state in which the node of [c] is understood and where it
    was, every other node and every link is as before, the goal has moved
    from the front of [active] to the end of [completed], the other goals are
    as before, pain is [max(0, pain - 20)], and the log received the focus
    entry followed by one success entry. *)
Theorem deepen_success_step d rnd g rest c n :
  active (goals d) = g :: rest ->
  goal_kind g = DeepenUnderstanding ->
  goal_concept g = Some c ->
  nodes (memory d) !! c = Some n ->
  (1 # 4 <= rnd)%Q ->
  pain (state d) <= 50 ->
  exists d',
    returned (runSimulationCycle d rnd) = Some d' /\
    nodes (memory d') !! c = Some (mkNode (node_x n) (node_y n) true) /\
    (forall k, k <> c -> nodes (memory d') !! k = nodes (memory d) !! k) /\
    dom (nodes (memory d')) = dom (nodes (memory d)) /\
    links (memory d') = links (memory d) /\
    active (goals d') = rest /\
    completed (goals d') = completed (goals d) ++ [g] /\
    pain (state d') = Z.max 0 (pain (state d) - 20) /\
    curiosity (state d') = curiosity (state d) /\
    boredom (state d') = boredom (state d) /\
    focus d' = Some c /\
    events (runSimulationCycle d rnd) = [focus_entry c; understood_entry c] /\
    count_type success (events (runSimulationCycle d rnd)) = 1%nat.
Proof.
  intros Ha Hk Hc Hn Hr Hp.
  pose proof (shouldFail_false rnd d Hr Hp) as Hf.
  rewrite (cycle_deepen_success d rnd g rest c n Ha Hc Hk Hf Hn). simpl.
  eexists. split; [reflexivity|]. simpl.
  split; [by rewrite lookup_insert_eq|].
  split; [by intros k Hne; rewrite lookup_insert_ne|].
  split.
  { rewrite dom_insert_L. apply elem_of_dom_2 in Hn. set_solver. }
  done.
Qed.

Lemma deepen_success_step_witness :
  let d := initialSimState in
  active (goals d) = [deepen_goal "belief system"] /\
  nodes (memory d) !! "belief system" = Some (mkNode 50 20 false) /\
  (1 # 4 <= 9 # 10)%Q /\
  pain (state d) <= 50 /\
  exists d',
    returned (runSimulationCycle d (9 # 10)) = Some d' /\
    nodes (memory d') !! "belief system" = Some (mkNode 50 20 true) /\
    active (goals d') = [] /\
    completed (goals d') = [deepen_goal "belief system"] /\
    pain (state d') = 0 /\
    focus d' = Some "belief system".
Proof.
  intros d.
  assert (Ha : active (goals d) = [deepen_goal "belief system"]) by reflexivity.
  assert (Hn : nodes (memory d) !! "belief system" = Some (mkNode 50 20 false))
    by (by vm_compute).
  assert (Hr : (1 # 4 <= 9 # 10)%Q) by (by vm_compute).
  assert (Hp : pain (state d) <= 50) by (by vm_compute).
  destruct (deepen_success_step d (9 # 10) _ _ "belief system" _ Ha
              eq_refl eq_refl Hn Hr Hp)
    as (d' & Hret & Hnode & _ & _ & _ & Hact & Hcomp & Hpain & _ & _ & Hfoc & _).
  split; [exact Ha|]. split; [exact Hn|]. split; [exact Hr|]. split; [exact Hp|].
  exists d'. split; [exact Hret|]. split; [exact Hnode|]. split; [exact Hact|].
  split; [exact Hcomp|]. split; [exact Hpain|exact Hfoc].
Defined.

(** ** Boredom *)

(** An idle press below the threshold: boredom rises by 15, nothing is
    queued; focus may wander. *)
Lemma idle_below_threshold d rnd b :
  active (goals d) = [] ->
  boredom (state d) = b -> 0 <= b -> b + 15 < 75 ->
  exists d',
    returned (runSimulationCycle d rnd) = Some d' /\
    active (goals d') = [] /\
    boredom (state d') = b + 15.
Proof.
  intros Ha Hb H0 H1.
  assert (Hmin : Z.min 100 (boredom (state d) + 15) = b + 15) by lia.
  destruct (decide (neighbors_of (focus d) (links (memory d)) = [])) as [Hn|Hn].
  - rewrite (cycle_idle_still d rnd Ha) by (done || lia). simpl.
    eexists. split; [reflexivity|]. simpl. by rewrite Hmin.
  - rewrite (cycle_idle_wander d rnd Ha) by (done || lia). simpl.
    eexists. split; [reflexivity|]. simpl. by rewrite Hmin.
Qed.

Lemma steps_cons d rnd rnds d' :
  returned (runSimulationCycle d rnd) = Some d' ->
  steps d (rnd :: rnds) = steps d' rnds.
Proof. intros H. unfold steps, setSimData. simpl. by rewrite H. Qed.

(** C8. From a state with an empty active queue and boredom 0, whatever is
    drawn: each of the first four presses returns, raises boredom by 15 (15,
    30, 45, 60) and queues nothing; on the fifth press line 300 brings boredom
    to 75, the queue receives exactly one goal, the expand-knowledge sentence
    for the focus that press started with, boredom is reset to 0, and focus
    does not move: the log receives the idle entry and the boredom entry,
    and no wandering entry. *)
Theorem fifth_idle_press_seeks_novelty d r1 r2 r3 r4 r5 :
  active (goals d) = [] ->
  boredom (state d) = 0 ->
  let d1 := steps d [r1] in
  let d2 := steps d [r1; r2] in
  let d3 := steps d [r1; r2; r3] in
  let d4 := steps d [r1; r2; r3; r4] in
  let d5 := steps d [r1; r2; r3; r4; r5] in
  (returned (runSimulationCycle d r1) = Some d1 /\
   returned (runSimulationCycle d1 r2) = Some d2 /\
   returned (runSimulationCycle d2 r3) = Some d3 /\
   returned (runSimulationCycle d3 r4) = Some d4 /\
   returned (runSimulationCycle d4 r5) = Some d5) /\
  (boredom (state d1) = 15 /\ boredom (state d2) = 30 /\
   boredom (state d3) = 45 /\ boredom (state d4) = 60) /\
  (active (goals d1) = [] /\ active (goals d2) = [] /\
   active (goals d3) = [] /\ active (goals d4) = []) /\
  Z.min 100 (boredom (state d4) + 15) = 75 /\
  active (goals d5) = [expand_goal (interpolate (focus d4))] /\
  boredom (state d5) = 0 /\
  focus d5 = focus d4 /\
  events (runSimulationCycle d4 r5) = [idle_entry; boredom_entry].
Proof.
  intros Ha Hb d1 d2 d3 d4 d5.
  destruct (idle_below_threshold d r1 0 Ha Hb) as (e1 & R1 & A1 & B1); [lia..|].
  destruct (idle_below_threshold e1 r2 _ A1 B1) as (e2 & R2 & A2 & B2); [lia..|].
  destruct (idle_below_threshold e2 r3 _ A2 B2) as (e3 & R3 & A3 & B3); [lia..|].
  destruct (idle_below_threshold e3 r4 _ A3 B3) as (e4 & R4 & A4 & B4); [lia..|].
  assert (E1 : d1 = e1) by (unfold d1; by rewrite (steps_cons _ _ _ _ R1)).
  assert (E2 : d2 = e2)
    by (unfold d2; by rewrite (steps_cons _ _ _ _ R1), (steps_cons _ _ _ _ R2)).
  assert (E3 : d3 = e3)
    by (unfold d3; by rewrite (steps_cons _ _ _ _ R1), (steps_cons _ _ _ _ R2),
                     (steps_cons _ _ _ _ R3)).
  assert (E4 : d4 = e4)
    by (unfold d4; by rewrite (steps_cons _ _ _ _ R1), (steps_cons _ _ _ _ R2),
                     (steps_cons _ _ _ _ R3), (steps_cons _ _ _ _ R4)).
  assert (R5 : runSimulationCycle e4 r5 =
    {| returned := Some (set_boredom 0
                     (set_active [expand_goal (interpolate (focus e4))] e4));
       newData := set_boredom 0
                     (set_active [expand_goal (interpolate (focus e4))] e4);
       events := [idle_entry; boredom_entry] |})
    by (rewrite (cycle_idle_threshold e4 r5 A4); [done|lia]).
  assert (E5 : d5 = set_boredom 0
                     (set_active [expand_goal (interpolate (focus e4))] e4)).
  { unfold d5.
    rewrite (steps_cons _ _ _ _ R1), (steps_cons _ _ _ _ R2),
      (steps_cons _ _ _ _ R3), (steps_cons _ _ _ _ R4).
    unfold steps, setSimData. simpl. by rewrite R5. }
  rewrite E1, E2, E3, E4, E5, R5. simpl.
  rewrite R1, R2, R3, R4, B1, B2, B3, B4, A1, A2, A3, A4.
  repeat split; done.
Qed.

Lemma fifth_idle_press_seeks_novelty_witness :
  let d := steps initialSimState [9 # 10] in
  let d4 := steps d [0; 1 # 2; 0; 1 # 2]%Q in
  let d5 := steps d [0; 1 # 2; 0; 1 # 2; 3 # 4]%Q in
  active (goals d) = [] /\
  boredom (state d) = 0 /\
  boredom (state d4) = 60 /\
  focus d4 = Some "creativity" /\
  active (goals d5) = [expand_goal "creativity"] /\
  boredom (state d5) = 0 /\
  focus d5 = focus d4.
Proof.
  intros d d4 d5.
  assert (Ha : active (goals d) = []) by reflexivity.
  assert (Hb : boredom (state d) = 0) by reflexivity.
  destruct (fifth_idle_press_seeks_novelty d 0 (1 # 2) 0 (1 # 2) (3 # 4) Ha Hb)
    as (_ & (_ & _ & _ & B4) & _ & _ & A5 & B5 & F5 & _).
  assert (F4 : focus d4 = Some "creativity") by (vm_compute; reflexivity).
  assert (A5' : active (goals d5) = [expand_goal (interpolate (focus d4))])
    by exact A5.
  rewrite F4 in A5'.
  split; [exact Ha|]. split; [exact Hb|]. split; [exact B4|].
  split; [exact F4|]. split; [exact A5'|]. split; [exact B5|exact F5].
Defined.

(** ** The event log *)

Lemma logToSim_slice msg ty l :
  logToSim msg ty l = slice_last 21 (l ++ [mkLogEntry ty msg]).
Proof.
  unfold logToSim, slice_last. rewrite length_app. simpl.
  replace (length l + 1 - 21)%nat with (length l - 20)%nat by lia.
  rewrite drop_app_le by lia. done.
Qed.

Lemma slice_last_snoc {A} (n : nat) (l : list A) (x : A) :
  slice_last (S n) (slice_last (S n) l ++ [x]) = slice_last (S n) (l ++ [x]).
Proof.
  unfold slice_last. rewrite !length_app, length_drop. simpl.
  destruct (decide (length l <= S n)%nat) as [Hle|Hgt].
  - replace (length l - S n)%nat with 0%nat by lia. simpl.
    by rewrite Nat.sub_0_r.
  - replace (length l - (length l - S n) + 1 - S n)%nat with 1%nat by lia.
    replace (length l + 1 - S n)%nat with (S (length l - S n)) by lia.
    rewrite !drop_app_le by (rewrite ?length_drop; lia).
    by rewrite drop_drop, Nat.add_1_r.
Qed.

Lemma slice_last_short {A} (n : nat) (l : list A) :
  (length l <= n)%nat -> slice_last n l = l.
Proof.
  intros H. unfold slice_last. by replace (length l - n)%nat with 0%nat by lia.
Qed.

Lemma slice_last_length {A} (n : nat) (l : list A) :
  length (slice_last n l) = Nat.min n (length l).
Proof. unfold slice_last. rewrite length_drop. lia. Qed.

Lemma slice_last_suffix {A} (n : nat) (l : list A) :
  take (length l - n) l ++ slice_last n l = l.
Proof. unfold slice_last. apply take_drop. Qed.

(** C9. Starting from a log of at most 21 entries (the component starts
    and restarts with one), after any sequence of [logToSim] calls the log is
    the last 21 entries of everything written so far, in the order written:
    it never holds more than 21 entries, what is missing is the oldest
    entries, and the entry written last is its last element. *)
Theorem log_keeps_last_21 (l0 es : list LogEntry) :
  (length l0 <= 21)%nat ->
  let final := fold_left (fun l e => logToSim (message e) (entry_type e) l) es l0 in
  (length final <= 21)%nat /\
  final = slice_last 21 (l0 ++ es) /\
  take (length (l0 ++ es) - 21) (l0 ++ es) ++ final = l0 ++ es /\
  length final = Nat.min 21 (length (l0 ++ es)) /\
  (forall es' e, es = es' ++ [e] -> last final = Some e).
Proof.
  intros H0 final.
  assert (Hfinal : final = slice_last 21 (l0 ++ es)).
  { unfold final. clear final. induction es as [|e es IH] using rev_ind.
    - simpl. rewrite app_nil_r. by rewrite slice_last_short.
    - rewrite fold_left_app. simpl. rewrite IH, logToSim_slice.
      destruct e as [ty msg]. simpl.
      by rewrite slice_last_snoc, app_assoc. }
  split; [rewrite Hfinal, slice_last_length; lia|].
  split; [done|].
  split; [rewrite Hfinal; apply slice_last_suffix|].
  split; [by rewrite Hfinal, slice_last_length|].
  intros es' e ->. rewrite Hfinal. unfold slice_last.
  rewrite app_assoc.
  rewrite drop_app_le by (rewrite !length_app; simpl; lia).
  by rewrite last_snoc.
Qed.

Lemma log_keeps_last_21_witness :
  let es := replicate 30 idle_entry ++ [boredom_entry] in
  let final := fold_left (fun l e => logToSim (message e) (entry_type e) l)
                         es initial_log in
  (length initial_log <= 21)%nat /\
  length final = 21%nat /\
  final = replicate 20 idle_entry ++ [boredom_entry] /\
  last final = Some boredom_entry.
Proof.
  intros es final.
  assert (H0 : (length initial_log <= 21)%nat) by (simpl; lia).
  destruct (log_keeps_last_21 initial_log es H0) as (_ & Hf & _ & Hlen & Hlast).
  split; [exact H0|]. split; [exact Hlen|]. split; [by vm_compute|].
  exact (Hlast (replicate 30 idle_entry) boredom_entry eq_refl).
Defined.

(** ** A goal the cycle does not handle *)

(** C10. When the head of the queue is read as neither deepen-understanding
    nor break-down (the expand-knowledge sentence is read so) and its concept
    [c] can be parsed, a press returns the state it was given with focus set
    to [c]: drives, both queues, nodes and links are untouched, and the log
    receives the focus entry and nothing else. The goal stays at the head, so
    every later press, whatever it draws, returns that same state and logs
    that same entry. *)
Theorem unhandled_goal_stalls d g rest c :
  active (goals d) = g :: rest ->
  goal_kind g = Unhandled ->
  goal_concept g = Some c ->
  let d' := set_focus (Some c) d in
  (forall rnd,
     returned (runSimulationCycle d rnd) = Some d' /\
     events (runSimulationCycle d rnd) = [focus_entry c]) /\
  state d' = state d /\
  goals d' = goals d /\
  memory d' = memory d /\
  focus d' = Some c /\
  (forall rnd,
     returned (runSimulationCycle d' rnd) = Some d' /\
     events (runSimulationCycle d' rnd) = [focus_entry c]) /\
  (forall rnd rnds, steps d (rnd :: rnds) = d').
Proof.
  intros Ha Hk Hc d'.
  assert (Hd : forall rnd, runSimulationCycle d rnd =
            {| returned := Some d'; newData := d'; events := [focus_entry c] |})
    by (intros rnd; apply (cycle_unhandled d rnd g rest c Ha Hc Hk)).
  assert (Hd' : forall rnd, runSimulationCycle d' rnd =
            {| returned := Some d'; newData := d'; events := [focus_entry c] |})
    by (intros rnd; apply (cycle_unhandled d' rnd g rest c Ha Hc Hk)).
  assert (Hfix : forall rnds, steps d' rnds = d').
  { induction rnds as [|rnd rnds IH]; [done|].
    rewrite (steps_cons d' rnd rnds d'); [done|]. by rewrite Hd'. }
  split; [by intros rnd; rewrite Hd|].
  do 4 (split; [done|]).
  split; [by intros rnd; rewrite Hd'|].
  intros rnd rnds. rewrite (steps_cons d rnd rnds d'); [apply Hfix|].
  by rewrite Hd.
Qed.

(** The state six presses reach when the first attempt succeeds and boredom
    then builds up: the queue holds the expand-knowledge goal. *)
Lemma unhandled_goal_stalls_witness :
  let d := steps initialSimState [9 # 10; 0; 0; 0; 0; 0]%Q in
  let d' := set_focus (Some "belief system") d in
  active (goals d) = [expand_goal "belief system"] /\
  goal_kind (expand_goal "belief system") = Unhandled /\
  goal_concept (expand_goal "belief system") = Some "belief system" /\
  (forall rnd,
     returned (runSimulationCycle d rnd) = Some d' /\
     events (runSimulationCycle d rnd) = [focus_entry "belief system"]) /\
  state d' = state d /\ goals d' = goals d /\ memory d' = memory d /\
  (forall rnd rnds, steps d (rnd :: rnds) = d').
Proof.
  intros d d'.
  assert (Ha : active (goals d) = [expand_goal "belief system"]) by (by vm_compute).
  assert (Hk : goal_kind (expand_goal "belief system") = Unhandled) by reflexivity.
  assert (Hc : goal_concept (expand_goal "belief system") = Some "belief system")
    by reflexivity.
  destruct (unhandled_goal_stalls d _ _ _ Ha Hk Hc)
    as (H1 & H2 & H3 & H4 & _ & _ & H7).
  split; [exact Ha|]. split; [exact Hk|]. split; [exact Hc|].
  split; [exact H1|]. split; [exact H2|]. split; [exact H3|].
  split; [exact H4|exact H7].
Defined.

(** * Further properties of the cycle *)

(** ** Reading goal sentences *)

#[local] Arguments match_quoted : simpl nomatch.
#[local] Arguments String.append : simpl nomatch.

Lemma match_quoted_cons a r :
  match_quoted (String a r) =
    if Ascii.eqb a quote
    then match lazy_body r with Some cap => Some cap | None => match_quoted r end
    else match_quoted r.
Proof. reflexivity. Qed.

Lemma match_quoted_skip p s :
  no_quote p = true -> match_quoted (p +:+ s) = match_quoted s.
Proof.
  induction p as [|a p IH]; simpl; intros Hp; [done|].
  rewrite match_quoted_cons.
  destruct (Ascii.eqb a quote); [done|]. by apply IH.
Qed.

(** X1. The pattern of line 260 is lazy and anchored at the first quote: in
    a sentence made of a quote-free prefix, a quoted name without quote or
    line terminator, and anything after it, the capture is that name. *)
Theorem goal_concept_first_quoted p c r :
  no_quote p = true ->
  plain c = true ->
  goal_concept (p +:+ String quote (c +:+ String quote r)) = Some c.
Proof.
  intros Hp Hc. unfold goal_concept. rewrite match_quoted_skip by done.
  rewrite match_quoted_cons. unfold quote at 1. simpl.
  by rewrite lazy_body_plain.
Qed.

Lemma goal_concept_first_quoted_witness :
  no_quote "Look at " = true /\
  plain "belief system" = true /\
  goal_concept ("Look at 'belief system', not at 'knowledge'") = Some "belief system".
Proof.
  split; [reflexivity|]. split; [reflexivity|].
  exact (goal_concept_first_quoted "Look at " "belief system" ", not at 'knowledge'"
           eq_refl eq_refl).
Defined.

(** X2. Writing a goal sentence and reading it back returns the concept
    exactly when the name has no quote and no line terminator in it; this
    holds for each of the three sentences the cycle writes. *)
Theorem sentence_round_trip c :
  (goal_concept (deepen_goal c) = Some c <-> plain c = true) /\
  (goal_concept (break_down_goal c) = Some c <-> plain c = true) /\
  (goal_concept (expand_goal c) = Some c <-> plain c = true).
Proof.
  repeat split;
    first [ apply goal_concept_plain
          | apply goal_concept_deepen_goal
          | apply goal_concept_break_down_goal
          | apply goal_concept_expand_goal ].
Qed.

#[local] Arguments match_quoted : simpl never.
#[local] Arguments String.append : simpl never.

(** ** Wandering *)

Lemma strict_eq_Some s f : strict_eq s (Some f) = true <-> s = f.
Proof. simpl. apply String.eqb_eq. Qed.

Lemma neighbors_of_In f ls n :
  In n (neighbors_of (Some f) ls) <->
  exists l, In l ls /\
    (source l = f /\ target l = n \/ target l = f /\ source l = n).
Proof.
  unfold neighbors_of. rewrite in_map_iff. split.
  - intros (l & Hn & [Hl Hf]%filter_In). exists l. split; [done|].
    destruct (strict_eq (source l) (Some f)) eqn:Es.
    + apply strict_eq_Some in Es. by left.
    + simpl in Hf. apply strict_eq_Some in Hf. by right.
  - intros (l & Hl & Hcase). exists l. split.
    + destruct (strict_eq (source l) (Some f)) eqn:Es.
      * destruct Hcase as [[_ ?]|[Ht Hs]]; [done|].
        apply strict_eq_Some in Es. congruence.
      * destruct Hcase as [[Hs _]|[_ ?]]; [|done].
        apply strict_eq_Some in Hs. congruence.
    + apply filter_In. split; [done|].
      destruct Hcase as [[Hs _]|[Ht _]].
      * apply strict_eq_Some in Hs. by rewrite Hs.
      * apply strict_eq_Some in Ht. rewrite Ht. apply orb_true_r.
Qed.

Lemma neighbors_of_None ls : neighbors_of None ls = [].
Proof.
  unfold neighbors_of. induction ls as [|l ls IH]; [done|]. simpl. exact IH.
Qed.

(** X3. The neighbours computed at lines 307-309 are the other ends of the
    links that touch the focus, whichever way the link is stored, so the
    relation is symmetric; without a focus there are none. *)
Theorem neighbors_of_undirected f ls n :
  (n ∈ neighbors_of (Some f) ls <->
   exists l, l ∈ ls /\
     (source l = f /\ target l = n \/ target l = f /\ source l = n)) /\
  (n ∈ neighbors_of (Some f) ls <-> f ∈ neighbors_of (Some n) ls) /\
  neighbors_of None ls = [].
Proof.
  split; [|split].
  - rewrite list_elem_of_In, neighbors_of_In.
    split; intros (l & Hl & H); exists l; by rewrite ?list_elem_of_In in *.
  - rewrite !list_elem_of_In, !neighbors_of_In.
    split; intros (l & Hl & H); exists l; (split; [done|]); tauto.
  - apply neighbors_of_None.
Qed.

Lemma random_index_in_range rnd n :
  (0 <= rnd)%Q -> (rnd < 1)%Q -> (0 < n)%nat ->
  0 <= Qfloor (rnd * inject_Z (Z.of_nat n)) < Z.of_nat n.
Proof.
  intros H0 H1 Hn.
  assert (Hpos : (0 < inject_Z (Z.of_nat n))%Q).
  { rewrite <- (Zlt_Qlt 0). lia. }
  split.
  - change 0 with (Qfloor 0). apply Qfloor_resp_le.
    apply Qmult_le_0_compat; [done|]. by apply Qlt_le_weak.
  - rewrite Zlt_Qlt. eapply Qle_lt_trans; [apply Qfloor_le|].
    apply Qlt_le_trans with (1 * inject_Z (Z.of_nat n))%Q.
    + by apply Qmult_lt_compat_r.
    + rewrite Qmult_1_l. apply Qle_refl.
Qed.

(** ** What reachable states look like *)

Lemma includes_cons b s needle :
  includes (String b s) needle = startsWith needle (String b s) || includes s needle.
Proof. reflexivity. Qed.

#[local] Arguments String.append : simpl nomatch.

Lemma startsWith_app_lacks needle s a t :
  lacks a needle = true ->
  startsWith needle (s +:+ String a t) = startsWith needle s.
Proof.
  revert needle. induction s as [|b s IH]; intros [|n ns] Hp; simpl; try done.
  - simpl in Hp. by destruct (Ascii.eqb n a).
  - simpl in Hp. rewrite IH; [done|]. by destruct (Ascii.eqb n a).
Qed.

Lemma includes_app_lacks needle s a t :
  lacks a needle = true ->
  includes (String a t) needle = false ->
  includes (s +:+ String a t) needle = includes s needle.
Proof.
  intros Hp Ht. induction s as [|b s IH].
  - simpl. rewrite Ht. by destruct needle.
  - pose proof (startsWith_app_lacks needle (String b s) a t Hp) as Hs.
    simpl in Hs |- *. by rewrite !includes_cons, IH, Hs.
Qed.

#[local] Arguments String.append : simpl never.

Lemma clean_name_sub c is_a : clean_name c -> clean_name (c +:+ sub_suffix is_a).
Proof.
  intros (Hp & Hd & Hb). unfold clean_name.
  destruct is_a; simpl.
  - rewrite plain_sub_A by done.
    by rewrite !(includes_app_lacks _ c "-" "A"), Hd, Hb.
  - rewrite plain_sub_B by done.
    by rewrite !(includes_app_lacks _ c "-" "B"), Hd, Hb.
Qed.

Lemma sentence_concept c g :
  plain c = true -> sentence_of c g -> goal_concept g = Some c.
Proof.
  intros Hp [-> | [-> | ->]].
  - by apply goal_concept_deepen_goal.
  - by apply goal_concept_break_down_goal.
  - by apply goal_concept_expand_goal.
Qed.

Lemma sentence_kind c g :
  clean_name c -> sentence_of c g ->
  g = deepen_goal c /\ goal_kind g = DeepenUnderstanding \/
  g = break_down_goal c /\ goal_kind g = BreakDownConcept \/
  g = expand_goal c /\ goal_kind g = Unhandled.
Proof.
  intros (Hp & Hd & Hb) [-> | [-> | ->]].
  - left. split; [done|]. apply goal_kind_deepen_goal.
  - right. left. split; [done|]. by apply goal_kind_break_down_goal.
  - right. right. split; [done|]. by apply goal_kind_expand_goal.
Qed.

Lemma well_formed_initial : well_formed initialSimState.
Proof.
  assert (Hdom : dom initial_nodes =
            {["belief system"; "knowledge"; "delusions"; "creativity"]})
    by (unfold initial_nodes; rewrite !dom_insert_L, dom_empty_L; set_solver).
  split; [|split; [|split]]; simpl.
  - intros k Hk. rewrite Hdom in Hk.
    assert (Hcase : k = "belief system" \/ k = "knowledge" \/
                    k = "delusions" \/ k = "creativity") by set_solver.
    destruct Hcase as [-> | [-> | [-> | ->]]]; by vm_compute.
  - intros l Hl. rewrite Hdom.
    assert (Hcase : l = mkLink "knowledge" "belief system" \/
                    l = mkLink "belief system" "delusions" \/
                    l = mkLink "knowledge" "creativity") by set_solver.
    destruct Hcase as [-> | [-> | ->]]; simpl; set_solver.
  - exists "belief system". split; [done|]. rewrite Hdom. set_solver.
  - intros g Hg. exists "belief system". split; [rewrite Hdom; set_solver|].
    left. set_solver.
Qed.

Lemma well_formed_set_pain v d : well_formed d -> well_formed (set_pain v d).
Proof. done. Qed.

Lemma well_formed_set_boredom v d : well_formed d -> well_formed (set_boredom v d).
Proof. done. Qed.

Lemma well_formed_set_completed l d :
  well_formed d -> well_formed (set_completed l d).
Proof. done. Qed.

Lemma well_formed_set_focus c d :
  c ∈ dom (nodes (memory d)) -> well_formed d -> well_formed (set_focus (Some c) d).
Proof.
  intros Hc (Hn & Hl & _ & Hg). split; [done|]. split; [done|].
  split; [by exists c|done].
Qed.

Lemma well_formed_set_active l d :
  (forall g, g ∈ l -> exists c, c ∈ dom (nodes (memory d)) /\ sentence_of c g) ->
  well_formed d -> well_formed (set_active l d).
Proof. intros Hl (Hn & Hk & Hf & _). done. Qed.

Lemma well_formed_understood c n d :
  nodes (memory d) !! c = Some n ->
  well_formed d ->
  well_formed (set_nodes (<[c := mkNode (node_x n) (node_y n) true]>
                            (nodes (memory d))) d).
Proof.
  intros Hc Hwf.
  assert (Hdom : dom (<[c := mkNode (node_x n) (node_y n) true]> (nodes (memory d)))
                 = dom (nodes (memory d))).
  { rewrite dom_insert_L. apply elem_of_dom_2 in Hc. set_solver. }
  unfold well_formed. simpl. by rewrite Hdom.
Qed.

(** Lines 289 and 294 for one sub-concept. *)
Lemma well_formed_sub c p a n d :
  nodes (memory d) !! c = Some p ->
  focus d = Some c ->
  well_formed d ->
  well_formed
    (set_links (links (memory d) ++ [mkLink c (c +:+ sub_suffix a)])
       (set_nodes (<[c +:+ sub_suffix a := n]> (nodes (memory d))) d)).
Proof.
  intros Hc Hfoc (Hn & Hl & _ & Hg).
  apply elem_of_dom_2 in Hc.
  split; [|split; [|split]]; simpl; rewrite dom_insert_L.
  - intros k [->%elem_of_singleton | Hk]%elem_of_union; [|by apply Hn].
    by apply clean_name_sub, Hn.
  - intros l [Hl' | ->%list_elem_of_singleton]%elem_of_app.
    + destruct (Hl l Hl'). set_solver.
    + simpl. set_solver.
  - exists c. split; [done|]. set_solver.
  - intros g Hg'. destruct (Hg g Hg') as (c' & Hc' & Hs).
    exists c'. split; [set_solver|done].
Qed.

Lemma wander_target_is_node d rnd :
  well_formed d ->
  (0 <= rnd)%Q -> (rnd < 1)%Q ->
  neighbors_of (focus d) (links (memory d)) <> [] ->
  exists n,
    js_index (neighbors_of (focus d) (links (memory d)))
      (Qfloor (rnd * inject_Z (Z.of_nat
         (length (neighbors_of (focus d) (links (memory d))))))) = Some n /\
    n ∈ neighbors_of (focus d) (links (memory d)) /\
    n ∈ dom (nodes (memory d)).
Proof.
  intros (_ & Hl & (f & Hf & _) & _) H0 H1 Hne.
  set (ns := neighbors_of (focus d) (links (memory d))) in *.
  assert (Hlen : (0 < length ns)%nat) by (destruct ns; [done|simpl; lia]).
  pose proof (random_index_in_range rnd (length ns) H0 H1 Hlen) as [Hlo Hhi].
  unfold js_index. destruct (Z.ltb_spec (Qfloor (rnd * inject_Z (Z.of_nat (length ns)))) 0);
    [lia|].
  destruct (lookup_lt_is_Some_2 ns
              (Z.to_nat (Qfloor (rnd * inject_Z (Z.of_nat (length ns)))))) as [n Hn];
    [lia|].
  exists n. split; [done|].
  assert (Hin : n ∈ ns) by (by eapply list_elem_of_lookup_2).
  split; [done|].
  unfold ns in Hin. rewrite Hf in Hin.
  apply list_elem_of_In, neighbors_of_In in Hin as (l & Hl' & Hcase).
  apply list_elem_of_In, Hl in Hl' as [Hs Ht].
  destruct Hcase as [[_ <-]|[_ <-]]; done.
Qed.

Lemma cycle_well_formed d rnd d' :
  well_formed d ->
  (0 <= rnd)%Q -> (rnd < 1)%Q ->
  returned (runSimulationCycle d rnd) = Some d' ->
  well_formed d'.
Proof.
  intros Hwf H0 H1 Hret.
  pose proof Hwf as (Hnames & Hlinks & (f & Hf & Hfd) & Hgoals).
  assert (Hhead : forall g rest c, active (goals d) = g :: rest ->
            goal_concept g = Some c ->
            c ∈ dom (nodes (memory d)) /\
            forall g', g' ∈ rest ->
              exists c', c' ∈ dom (nodes (memory d)) /\ sentence_of c' g').
  { intros g rest c Ha Hc. split.
    - destruct (Hgoals g) as (c0 & Hc0 & Hs); [rewrite Ha; set_solver|].
      rewrite (sentence_concept c0 g) in Hc by (done || apply Hnames, Hc0).
      by injection Hc as <-.
    - intros g' Hg'. apply Hgoals. rewrite Ha. set_solver. }
  cycle_cases d rnd as Hrun; rewrite Hrun in Hret; simpl in Hret;
    try discriminate; injection Hret as <-;
    try (destruct (Hhead _ _ _ eq_refl Hc) as [Hcd Hrest]).
  - by apply well_formed_set_boredom.
  - destruct (wander_target_is_node d rnd Hwf H0 H1 Hn) as (n & -> & _ & Hnd).
    by apply (well_formed_set_focus n), well_formed_set_boredom.
  - apply well_formed_set_boredom, well_formed_set_active; [|done].
    intros g ->%list_elem_of_singleton. exists f. rewrite Hf. simpl.
    split; [done|]. by right; right.
  - by apply well_formed_set_pain, well_formed_set_focus.
  - apply well_formed_set_pain, well_formed_set_active;
      [|by apply well_formed_set_focus].
    intros g' [-> | Hg']%elem_of_cons; [|by apply Hrest].
    exists c. split; [done|]. by right; left.
  - apply well_formed_set_pain, well_formed_set_completed.
    apply well_formed_set_active.
    + intros g' Hg'. destruct (Hrest g' Hg') as (c' & Hc' & Hs).
      exists c'. split; [|done]. simpl. rewrite dom_insert_L. set_solver.
    + apply (well_formed_understood c n (set_focus (Some c) d)); [done|].
      by apply well_formed_set_focus.
  - apply well_formed_set_active.
    + simpl. rewrite !dom_insert_L.
      intros g' [->|[-> | Hg']%elem_of_cons]%elem_of_cons.
      * exists (c +:+ "-A"). split; [set_solver|by left].
      * exists (c +:+ "-B"). split; [set_solver|by left].
      * destruct (Hrest g' Hg') as (c' & Hc' & Hs).
        exists c'. split; [set_solver|done].
    + pose proof (well_formed_sub c n false
                    (mkNode (sub_x n false) (sub_y n) false)
                    (set_focus (Some c) d) Hn eq_refl
                    (well_formed_set_focus c d Hcd Hwf)) as Hb.
      assert (HnB : nodes (memory
                (set_links (links (memory (set_focus (Some c) d)) ++
                              [mkLink c (c +:+ sub_suffix false)])
                   (set_nodes (<[c +:+ sub_suffix false :=
                                   mkNode (sub_x n false) (sub_y n) false]>
                                 (nodes (memory (set_focus (Some c) d))))
                      (set_focus (Some c) d)))) !! c = Some n).
      { simpl. rewrite lookup_insert_ne; [done|].
        apply (sub_suffix_ne_parent c false). }
      pose proof (well_formed_sub c n true
                    (mkNode (sub_x n true) (sub_y n) false) _ HnB eq_refl Hb) as Ha'.
      simpl in Ha'. rewrite <- app_assoc in Ha'. exact Ha'.
  - by apply well_formed_set_focus.
Qed.

Lemma reachable_well_formed d : reachable d -> well_formed d.
Proof.
  induction 1 as [|d rnd d' _ IH H0 H1 Hret]; [apply well_formed_initial|].
  by eapply cycle_well_formed.
Qed.

(** X4. In every reachable state the focus is a node of the memory, and
    both ends of every link are nodes: the cycle creates a node before it
    links it or focuses on it. *)
Theorem reachable_graph_closed d :
  reachable d ->
  (exists f n, focus d = Some f /\ nodes (memory d) !! f = Some n) /\
  (forall l, l ∈ links (memory d) ->
     is_Some (nodes (memory d) !! source l) /\
     is_Some (nodes (memory d) !! target l)).
Proof.
  intros (_ & Hl & (f & Hf & Hfd) & _)%reachable_well_formed. split.
  - apply elem_of_dom in Hfd as [n Hn]. by exists f, n.
  - intros l [Hs Ht]%Hl. by rewrite <- !elem_of_dom.
Qed.

Lemma reachable_graph_closed_witness :
  let d := steps initialSimState (replicate 5 0%Q) in
  reachable d /\
  (exists f n, focus d = Some f /\ nodes (memory d) !! f = Some n) /\
  (forall l, l ∈ links (memory d) ->
     is_Some (nodes (memory d) !! source l) /\
     is_Some (nodes (memory d) !! target l)).
Proof.
  intros d. split; [apply (reachable_all_fail 5)|].
  exact (reachable_graph_closed d (reachable_all_fail 5)).
Defined.

(** X5. In every reachable state each goal in the active queue is the
    deepen, break-down or expand sentence of a concept that is a node, and
    the cycle reads it back as written: the pattern of line 260 returns that
    concept and the tests of lines 265 and 282 select the matching branch
    (none for the expand sentence). *)
Theorem reachable_goals_read_as_written d :
  reachable d ->
  forall g, g ∈ active (goals d) ->
    exists c,
      is_Some (nodes (memory d) !! c) /\
      goal_concept g = Some c /\
      (g = deepen_goal c /\ goal_kind g = DeepenUnderstanding \/
       g = break_down_goal c /\ goal_kind g = BreakDownConcept \/
       g = expand_goal c /\ goal_kind g = Unhandled).
Proof.
  intros (Hn & _ & _ & Hg)%reachable_well_formed g Hin.
  destruct (Hg g Hin) as (c & Hc & Hs). exists c.
  pose proof (Hn c Hc) as Hclean.
  split; [by apply elem_of_dom|].
  split; [apply (sentence_concept c g); [apply Hclean|done]|].
  by apply sentence_kind.
Qed.

Lemma reachable_goals_read_as_written_witness :
  let d := steps initialSimState (replicate 4 0%Q) in
  reachable d /\
  break_down_goal "belief system" ∈ active (goals d) /\
  exists c,
    is_Some (nodes (memory d) !! c) /\
    goal_concept (break_down_goal "belief system") = Some c /\
    (break_down_goal "belief system" = deepen_goal c /\
       goal_kind (break_down_goal "belief system") = DeepenUnderstanding \/
     break_down_goal "belief system" = break_down_goal c /\
       goal_kind (break_down_goal "belief system") = BreakDownConcept \/
     break_down_goal "belief system" = expand_goal c /\
       goal_kind (break_down_goal "belief system") = Unhandled).
Proof.
  intros d.
  assert (Hin : break_down_goal "belief system" ∈ active (goals d))
    by (change (active (goals d)) with [break_down_goal "belief system"];
        apply list_elem_of_here).
  split; [apply (reachable_all_fail 4)|]. split; [exact Hin|].
  exact (reachable_goals_read_as_written d (reachable_all_fail 4) _ Hin).
Defined.

(** X6. From a reachable state the updater never raises: whatever
    [Math.random()] yields, the press returns a new state. *)
Theorem reachable_press_returns d rnd :
  reachable d ->
  (0 <= rnd)%Q -> (rnd < 1)%Q ->
  exists d', returned (runSimulationCycle d rnd) = Some d' /\ reachable d'.
Proof.
  intros Hd H0 H1.
  pose proof (reachable_well_formed d Hd) as (Hn & _ & _ & Hg).
  assert (Hsome : is_Some (returned (runSimulationCycle d rnd))).
  { cycle_cases d rnd as Hrun; rewrite Hrun; simpl; try done.
    - destruct (Hg g) as (c0 & Hc0 & Hs); [rewrite ?Ha; set_solver|].
      rewrite (sentence_concept c0 g) in Hc by (done || apply Hn, Hc0).
      injection Hc as <-. apply not_elem_of_dom in Hn0. done.
    - destruct (Hg g) as (c0 & Hc0 & Hs); [rewrite ?Ha; set_solver|].
      rewrite (sentence_concept c0 g) in Hc by (done || apply Hn, Hc0).
      injection Hc as <-. apply not_elem_of_dom in Hn0. done.
    - destruct (Hg g) as (c0 & Hc0 & Hs); [rewrite ?Ha; set_solver|].
      rewrite (sentence_concept c0 g) in Hc by (done || apply Hn, Hc0).
      done. }
  destruct Hsome as [d' Hret]. exists d'. split; [done|].
  by apply (reachable_step d rnd d').
Qed.

Lemma reachable_press_returns_witness :
  let d := steps initialSimState (replicate 4 0%Q) in
  reachable d /\ (0 <= 1 # 3)%Q /\ (1 # 3 < 1)%Q /\
  exists d', returned (runSimulationCycle d (1 # 3)) = Some d' /\ reachable d'.
Proof.
  intros d.
  assert (H0 : (0 <= 1 # 3)%Q) by (by vm_compute).
  assert (H1 : (1 # 3 < 1)%Q) by reflexivity.
  split; [apply (reachable_all_fail 4)|]. split; [exact H0|]. split; [exact H1|].
  exact (reachable_press_returns d (1 # 3) (reachable_all_fail 4) H0 H1).
Defined.

(** ** Drives between presses *)

Lemma shouldFail_false_inv rnd d :
  shouldFail rnd d = false -> (1 # 4 <= rnd)%Q /\ pain (state d) <= 50.
Proof.
  unfold shouldFail, Qltb. intros [Hq Hp]%orb_false_elim. split.
  - destruct (rnd ?= 1 # 4)%Q eqn:E; try discriminate.
    + apply Qeq_alt in E. apply Qle_lteq. right. by symmetry.
    + apply Qgt_alt in E. by apply Qlt_le_weak.
  - by apply Z.ltb_ge.
Qed.

Lemma cycle_drives_on_grid d rnd d' :
  drives_on_grid (state d) ->
  returned (runSimulationCycle d rnd) = Some d' ->
  drives_on_grid (state d').
Proof.
  unfold drives_on_grid. intros (Hc & (Hb1 & Hb2) & Hp1 & Hp2) Hret.
  cycle_cases d rnd as Hrun; rewrite Hrun in Hret; simpl in Hret;
    try discriminate; injection Hret as <-; simpl;
    try (apply shouldFail_false_inv in Hf as [_ Hf]);
    repeat split; try lia; Z.div_mod_to_equations; lia.
Qed.

(** X7. Between presses the thresholds are never on display: in every
    reachable state curiosity is 65, boredom is one of 0, 15, 30, 45, 60 and
    pain is a multiple of 5 between 0 and 75. *)
Theorem reachable_drives_on_grid d :
  reachable d ->
  curiosity (state d) = 65 /\
  (0 <= boredom (state d) <= 60 /\ boredom (state d) mod 15 = 0) /\
  (0 <= pain (state d) <= 75 /\ pain (state d) mod 5 = 0).
Proof.
  induction 1 as [|d rnd d' _ IH _ _ Hret].
  - by vm_compute.
  - exact (cycle_drives_on_grid d rnd d' IH Hret).
Qed.

Lemma reachable_drives_on_grid_witness :
  let d := steps initialSimState (replicate 3 0%Q) in
  reachable d /\
  curiosity (state d) = 65 /\
  (0 <= boredom (state d) <= 60 /\ boredom (state d) mod 15 = 0) /\
  (0 <= pain (state d) <= 75 /\ pain (state d) mod 5 = 0).
Proof.
  intros d. split; [apply (reachable_all_fail 3)|].
  exact (reachable_drives_on_grid d (reachable_all_fail 3)).
Defined.

(** ** What a press can and cannot change *)

(** X8. A press never takes anything away: curiosity is never written, no
    node is removed from the memory, and the links and the completed goals
    are only ever appended to. *)
Theorem press_only_adds d rnd d' :
  returned (runSimulationCycle d rnd) = Some d' ->
  curiosity (state d') = curiosity (state d) /\
  dom (nodes (memory d)) ⊆ dom (nodes (memory d')) /\
  links (memory d) `prefix_of` links (memory d') /\
  completed (goals d) `prefix_of` completed (goals d').
Proof.
  intros Hret.
  cycle_cases d rnd as Hrun; rewrite Hrun in Hret; simpl in Hret;
    try discriminate; injection Hret as <-; simpl;
    (split; [done|]); (split; [rewrite ?dom_insert_L; set_solver|]);
    split; try done; by apply prefix_app_r.
Qed.

Lemma press_only_adds_witness :
  let d := steps initialSimState (replicate 4 0%Q) in
  let d' := steps initialSimState (replicate 5 0%Q) in
  returned (runSimulationCycle d 0) = Some d' /\
  curiosity (state d') = curiosity (state d) /\
  dom (nodes (memory d)) ⊆ dom (nodes (memory d')) /\
  links (memory d) `prefix_of` links (memory d') /\
  completed (goals d) `prefix_of` completed (goals d').
Proof.
  intros d d'.
  assert (Hret : returned (runSimulationCycle d 0) = Some d')
    by (vm_compute; reflexivity).
  split; [exact Hret|]. exact (press_only_adds d 0%Q d' Hret).
Defined.

(** X9. The two halves of the cycle keep to their own drive: a press with a
    goal in the queue leaves boredom alone, and a press with an empty queue
    leaves pain, the memory and the completed goals alone and queues at most
    one goal. *)
Theorem press_frame d rnd d' :
  returned (runSimulationCycle d rnd) = Some d' ->
  (active (goals d) <> [] -> boredom (state d') = boredom (state d)) /\
  (active (goals d) = [] ->
     pain (state d') = pain (state d) /\
     memory d' = memory d /\
     completed (goals d') = completed (goals d) /\
     (length (active (goals d')) <= 1)%nat).
Proof.
  intros Hret.
  cycle_cases d rnd as Hrun; rewrite Hrun in Hret; simpl in Hret;
    try discriminate; injection Hret as <-; simpl; split; try done;
    intros _; repeat split; try done; rewrite ?Ha; simpl; lia.
Qed.

Lemma press_frame_witness :
  let d := steps initialSimState [9 # 10] in
  let d' := steps initialSimState [9 # 10; 0]%Q in
  returned (runSimulationCycle d 0) = Some d' /\
  active (goals d) = [] /\
  pain (state d') = pain (state d) /\
  memory d' = memory d /\
  completed (goals d') = completed (goals d) /\
  (length (active (goals d')) <= 1)%nat.
Proof.
  intros d d'.
  assert (Hret : returned (runSimulationCycle d 0) = Some d')
    by (vm_compute; reflexivity).
  assert (Ha : active (goals d) = []) by reflexivity.
  split; [exact Hret|]. split; [exact Ha|].
  exact (proj2 (press_frame d 0%Q d' Hret) Ha).
Defined.

(** X10. A press writes at most four log entries. It writes none exactly
    when the head of the queue cannot be parsed; otherwise the first entry is
    the idle entry when the queue is empty and the focus entry of the head's
    concept when it is not. *)
Theorem press_log_entries d rnd :
  (length (events (runSimulationCycle d rnd)) <= 4)%nat /\
  (events (runSimulationCycle d rnd) = [] <->
   exists g rest, active (goals d) = g :: rest /\ goal_concept g = None) /\
  (active (goals d) = [] ->
   head (events (runSimulationCycle d rnd)) = Some idle_entry) /\
  (forall g rest c, active (goals d) = g :: rest -> goal_concept g = Some c ->
   head (events (runSimulationCycle d rnd)) = Some (focus_entry c)).
Proof.
  cycle_cases d rnd as Hrun; rewrite Hrun; simpl;
    (split; [lia|]);
    (split; [split; [try done|intros (g' & rest' & Hg' & Hc'); congruence]|]);
    try (split; [try done|intros g' rest' c' Hg' Hc'; congruence]).
  intros _. by exists g, rest.
Qed.

(** ** The log of the component *)

Lemma fold_logToSim (l0 es : list LogEntry) :
  (length l0 <= 21)%nat ->
  fold_left (fun l e => logToSim (message e) (entry_type e) l) es l0
  = slice_last 21 (l0 ++ es).
Proof.
  intros H0. induction es as [|e es IH] using rev_ind.
  - simpl. rewrite app_nil_r. by rewrite slice_last_short.
  - rewrite fold_left_app. simpl. rewrite IH, logToSim_slice.
    destruct e as [ty msg]. simpl.
    by rewrite slice_last_snoc, app_assoc.
Qed.

Lemma run_cycle_log sim rnd :
  (1 <= length (log sim) <= 21)%nat ->
  log (run_cycle sim rnd) =
    slice_last 21 (log sim ++ events (runSimulationCycle (simData sim) rnd)) /\
  (1 <= length (log (run_cycle sim rnd)) <= 21)%nat.
Proof.
  intros [Hlo Hhi].
  assert (Hlog : log (run_cycle sim rnd) =
            slice_last 21 (log sim ++ events (runSimulationCycle (simData sim) rnd)))
    by (unfold run_cycle; simpl; by apply fold_logToSim).
  split; [done|]. rewrite Hlog, slice_last_length, length_app. lia.
Qed.

(** X11. Whatever is pressed, Run Cycle any number of times after the start
    or after a Reset, the log on screen holds between 1 and 21 entries, and
    each press leaves the last 21 of the entries it found followed by the
    ones it wrote. *)
Theorem component_log_bounded sim rnds rnd :
  sim = initial_simulation \/ (exists sim0, sim = resetSimulation sim0) ->
  let before := run_cycles sim rnds in
  (1 <= length (log before) <= 21)%nat /\
  log (run_cycle before rnd) =
    slice_last 21 (log before ++ events (runSimulationCycle (simData before) rnd)).
Proof.
  intros Hstart before.
  assert (Hlen : (1 <= length (log before) <= 21)%nat).
  { unfold before, run_cycles. clear before.
    induction rnds as [|r rnds IH] using rev_ind.
    - destruct Hstart as [-> | [sim0 ->]]; simpl; lia.
    - rewrite fold_left_app. simpl. by apply run_cycle_log. }
  split; [done|]. by apply run_cycle_log.
Qed.

Lemma component_log_bounded_witness :
  let before := run_cycles initial_simulation (replicate 12 0%Q) in
  (1 <= length (log before) <= 21)%nat /\
  log (run_cycle before 0) =
    slice_last 21 (log before ++ events (runSimulationCycle (simData before) 0)).
Proof.
  exact (component_log_bounded initial_simulation (replicate 12 0%Q) 0%Q
           (or_introl eq_refl)).
Defined.

(** ** Attempts at understanding *)



Lemma attempts_bounded_by_pain n :
  forall d g rest c nd rnds,
    active (goals d) = g :: rest ->
    goal_kind g = DeepenUnderstanding ->
    goal_concept g = Some c ->
    nodes (memory d) !! c = Some nd ->
    length rnds = S n ->
    80 <= pain (state d) + 25 * Z.of_nat (S n) ->
    exists k rnd d',
      rnds !! k = Some rnd /\
      active (goals (steps d (take k rnds))) = g :: rest /\
      returned (runSimulationCycle (steps d (take k rnds)) rnd) = Some d' /\
      (active (goals d') = rest /\
       completed (goals d') = completed (goals (steps d (take k rnds))) ++ [g] \/
       active (goals d') = break_down_goal c :: rest).
Proof.
  induction n as [|n IH]; intros d g rest c nd rnds Ha Hk Hc Hn Hlen Hpain;
    destruct rnds as [|r rs]; try discriminate;
    destruct (shouldFail r d) eqn:Hf.
  - exists 0%nat, r. eexists. split; [done|]. split; [done|].
    change (steps d (take 0 (r :: rs))) with d.
    rewrite (cycle_deepen_escalate d r g rest c Ha Hc Hk Hf) by lia.
    simpl. split; [reflexivity|]. by right.
  - exists 0%nat, r. eexists. split; [done|]. split; [done|].
    change (steps d (take 0 (r :: rs))) with d.
    rewrite (cycle_deepen_success d r g rest c nd Ha Hc Hk Hf Hn).
    simpl. split; [reflexivity|]. by left.
  - destruct (Z_lt_le_dec (Z.min 100 (pain (state d) + 25)) 80) as [Hlt|Hge].
    + pose proof (cycle_deepen_fail d r g rest c Ha Hc Hk Hf Hlt) as Hrun.
      simpl in Hrun.
      set (d1 := set_pain (Z.min 100 (pain (state d) + 25)) (set_focus (Some c) d))
        in *.
      destruct (IH d1 g rest c nd rs) as (k & rnd & d' & Hk' & Hact & Hret & Hout);
        try done.
      { simpl in Hlen. lia. }
      { simpl. lia. }
      exists (S k), rnd, d'.
      change (take (S k) (r :: rs)) with (r :: take k rs).
      rewrite (steps_cons d r (take k rs) d1) by (by rewrite Hrun).
      done.
    + exists 0%nat, r. eexists. split; [done|]. split; [done|].
      change (steps d (take 0 (r :: rs))) with d.
      rewrite (cycle_deepen_escalate d r g rest c Ha Hc Hk Hf Hge).
      simpl. split; [reflexivity|]. by right.
  - exists 0%nat, r. eexists. split; [done|]. split; [done|].
    change (steps d (take 0 (r :: rs))) with d.
    rewrite (cycle_deepen_success d r g rest c nd Ha Hc Hk Hf Hn).
    simpl. split; [reflexivity|]. by left.
Qed.

(** X13. No goal is attempted more than four times. When the head of the
    queue is read as deepen-understanding of a node and pain is not negative,
    then whatever the next four draws are, one of the next four presses finds
    that goal still at the head and resolves it: it is either moved to the
    completed list or replaced, in place, by the break-down sentence of the
    same concept. *)
Theorem goal_resolved_within_four_presses d g rest c nd r1 r2 r3 r4 :
  active (goals d) = g :: rest ->
  goal_kind g = DeepenUnderstanding ->
  goal_concept g = Some c ->
  nodes (memory d) !! c = Some nd ->
  0 <= pain (state d) ->
  exists k rnd d',
    [r1; r2; r3; r4] !! k = Some rnd /\
    active (goals (steps d (take k [r1; r2; r3; r4]))) = g :: rest /\
    returned (runSimulationCycle (steps d (take k [r1; r2; r3; r4])) rnd) = Some d' /\
    (active (goals d') = rest /\
     completed (goals d') =
       completed (goals (steps d (take k [r1; r2; r3; r4]))) ++ [g] \/
     active (goals d') = break_down_goal c :: rest).
Proof.
  intros Ha Hk Hc Hn Hp.
  apply (attempts_bounded_by_pain 3 d g rest c nd [r1; r2; r3; r4]); try done.
  lia.
Qed.

Lemma goal_resolved_within_four_presses_witness :
  let d := initialSimState in
  let g := deepen_goal "belief system" in
  exists k rnd d',
    [0; 0; 9 # 10; 0]%Q !! k = Some rnd /\
    active (goals (steps d (take k [0; 0; 9 # 10; 0]%Q))) = [g] /\
    returned (runSimulationCycle (steps d (take k [0; 0; 9 # 10; 0]%Q)) rnd) = Some d' /\
    (active (goals d') = [] /\
     completed (goals d') =
       completed (goals (steps d (take k [0; 0; 9 # 10; 0]%Q))) ++ [g] \/
     active (goals d') = [break_down_goal "belief system"]).
Proof.
  intros d g.
  assert (Hn : nodes (memory d) !! "belief system" = Some (mkNode 50 20 false))
    by (by vm_compute).
  assert (Hp : 0 <= pain (state d)) by (by vm_compute).
  exact (goal_resolved_within_four_presses d g [] "belief system" _
           0%Q 0%Q (9 # 10)%Q 0%Q eq_refl eq_refl eq_refl Hn Hp).
Defined.

(** ** Idle wandering *)

Lemma random_pick {A} (ns : list A) rnd :
  ns <> [] ->
  (0 <= rnd)%Q -> (rnd < 1)%Q ->
  exists n,
    js_index ns (Qfloor (rnd * inject_Z (Z.of_nat (length ns)))) = Some n /\
    n ∈ ns.
Proof.
  intros Hne H0 H1.
  assert (Hlen : (0 < length ns)%nat) by (destruct ns; [done|simpl; lia]).
  pose proof (random_index_in_range rnd (length ns) H0 H1 Hlen) as [Hlo Hhi].
  unfold js_index.
  destruct (Z.ltb_spec (Qfloor (rnd * inject_Z (Z.of_nat (length ns)))) 0); [lia|].
  destruct (lookup_lt_is_Some_2 ns
              (Z.to_nat (Qfloor (rnd * inject_Z (Z.of_nat (length ns)))))) as [n Hn];
    [lia|].
  exists n. split; [done|]. by eapply list_elem_of_lookup_2.
Qed.

(** X14. An idle press below the boredom threshold, from a focus that has
    at least one link and with a draw in the range of [Math.random()], moves
    the focus to a concept joined to the old focus by a link (in either
    direction), raises boredom by 15, logs the idle entry and the wandering
    entry for the new focus, and changes nothing else. *)
Theorem wander_moves_along_a_link d rnd :
  active (goals d) = [] ->
  boredom (state d) + 15 < 75 ->
  neighbors_of (focus d) (links (memory d)) <> [] ->
  (0 <= rnd)%Q -> (rnd < 1)%Q ->
  exists d' f n l,
    returned (runSimulationCycle d rnd) = Some d' /\
    focus d = Some f /\ focus d' = Some n /\
    l ∈ links (memory d) /\
    (source l = f /\ target l = n \/ target l = f /\ source l = n) /\
    boredom (state d') = boredom (state d) + 15 /\
    pain (state d') = pain (state d) /\
    curiosity (state d') = curiosity (state d) /\
    goals d' = goals d /\
    memory d' = memory d /\
    events (runSimulationCycle d rnd) = [idle_entry; wander_entry n].
Proof.
  intros Ha Hb Hne H0 H1.
  destruct (random_pick _ rnd Hne H0 H1) as (n & Hidx & Hin).
  destruct (focus d) as [f|] eqn:Hf;
    [|by rewrite neighbors_of_None in Hne].
  apply list_elem_of_In, neighbors_of_In in Hin as (l & Hl%list_elem_of_In & Hcase).
  rewrite (cycle_idle_wander d rnd Ha) by (rewrite ?Hf; (done || lia)).
  simpl. rewrite Hf, Hidx. simpl.
  eexists _, f, n, l. split; [reflexivity|]. simpl.
  replace (Z.min 100 (boredom (state d) + 15)) with (boredom (state d) + 15) by lia.
  by destruct (goals d), (memory d).
Qed.

Lemma wander_moves_along_a_link_witness :
  let d := steps initialSimState [9 # 10] in
  active (goals d) = [] /\
  boredom (state d) + 15 < 75 /\
  neighbors_of (focus d) (links (memory d)) = ["knowledge"; "delusions"] /\
  exists d' f n l,
    returned (runSimulationCycle d (3 # 4)) = Some d' /\
    focus d = Some f /\ focus d' = Some n /\
    l ∈ links (memory d) /\
    (source l = f /\ target l = n \/ target l = f /\ source l = n) /\
    boredom (state d') = boredom (state d) + 15.
Proof.
  intros d.
  assert (Ha : active (goals d) = []) by reflexivity.
  assert (Hb : boredom (state d) + 15 < 75) by reflexivity.
  assert (Hns : neighbors_of (focus d) (links (memory d)) = ["knowledge"; "delusions"])
    by reflexivity.
  assert (Hne : neighbors_of (focus d) (links (memory d)) <> [])
    by (rewrite Hns; discriminate).
  assert (H0 : (0 <= 3 # 4)%Q) by discriminate.
  assert (H1 : (3 # 4 < 1)%Q) by reflexivity.
  destruct (wander_moves_along_a_link d (3 # 4) Ha Hb Hne H0 H1)
    as (d' & f & n & l & Hret & Hf & Hf' & Hl & Hcase & Hbo & _).
  split; [exact Ha|]. split; [exact Hb|]. split; [exact Hns|].
  exists d', f, n, l.
  split; [exact Hret|]. split; [exact Hf|]. split; [exact Hf'|].
  split; [exact Hl|]. split; [exact Hcase|exact Hbo].
Defined.

(** ** The memory map *)

Lemma first_segment_app_dash c t :
  first_segment (c +:+ String "-" t) = first_segment c.
Proof.
  induction c as [|a c IH].
  - reflexivity.
  - change (String a c +:+ String "-" t) with (String a (c +:+ String "-" t)).
    simpl. by rewrite IH.
Qed.

Lemma node_label_sub c is_a : node_label (c +:+ sub_suffix is_a) = node_label c.
Proof. unfold node_label. destruct is_a; apply first_segment_app_dash. Qed.

Lemma cycle_labels d rnd d' :
  (forall k, k ∈ dom (nodes (memory d)) -> node_label k ∈ dom initial_nodes) ->
  returned (runSimulationCycle d rnd) = Some d' ->
  forall k, k ∈ dom (nodes (memory d')) -> node_label k ∈ dom initial_nodes.
Proof.
  intros Hd Hret.
  cycle_cases d rnd as Hrun; rewrite Hrun in Hret; simpl in Hret;
    try discriminate; injection Hret as <-; simpl; try done.
  - intros k. rewrite dom_insert_L. apply elem_of_dom_2 in Hn.
    intros [->%elem_of_singleton | Hin]%elem_of_union; by apply Hd.
  - intros k. rewrite !dom_insert_L. apply elem_of_dom_2 in Hn.
    intros [->%elem_of_singleton
           | [->%elem_of_singleton | Hin]%elem_of_union]%elem_of_union.
    + rewrite (node_label_sub c true : node_label (c +:+ "-A") = _). by apply Hd.
    + rewrite (node_label_sub c false : node_label (c +:+ "-B") = _). by apply Hd.
    + by apply Hd.
Qed.

(** X15. The box of a node shows its name up to the first dash, so a
    sub-concept is drawn with the text of its parent, and in every reachable
    state every box carries the name of one of the four nodes of the initial
    snapshot. *)
Theorem reachable_labels_are_initial_names d :
  reachable d ->
  forall k n, nodes (memory d) !! k = Some n ->
    is_Some (initial_nodes !! node_label k) /\
    node_label (k +:+ "-A") = node_label k /\
    node_label (k +:+ "-B") = node_label k.
Proof.
  intros Hd.
  assert (Hl : forall k, k ∈ dom (nodes (memory d)) ->
                 node_label k ∈ dom initial_nodes).
  { induction Hd as [|d rnd d' _ IH _ _ Hret].
    - intros k Hk%elem_of_dom. destruct Hk as [n Hn].
      destruct (initial_nodes_names k n Hn) as [-> | [-> | [-> | ->]]];
        by vm_compute.
    - by eapply cycle_labels. }
  intros k n Hk. split; [by eapply elem_of_dom, Hl, elem_of_dom_2|].
  split; [apply (node_label_sub k true)|apply (node_label_sub k false)].
Qed.

Lemma reachable_labels_are_initial_names_witness :
  let d := steps initialSimState (replicate 10 0%Q) in
  reachable d /\
  nodes (memory d) !! "belief system-A-B" = Some (mkNode 45 70 false) /\
  node_label "belief system-A-B" = "belief system" /\
  is_Some (initial_nodes !! node_label "belief system-A-B").
Proof.
  intros d.
  assert (Hn : nodes (memory d) !! "belief system-A-B" = Some (mkNode 45 70 false))
    by (vm_compute; reflexivity).
  split; [apply (reachable_all_fail 10)|]. split; [exact Hn|].
  split; [reflexivity|].
  exact (proj1 (reachable_labels_are_initial_names d (reachable_all_fail 10) _ _ Hn)).
Defined.

Lemma list_filter_cons {A} (p : A -> bool) (a : A) (l : list A) :
  List.filter p (a :: l) = if p a then a :: List.filter p l else List.filter p l.
Proof. reflexivity. Qed.

Lemma filter_key_absent (f : string) (l : list (string * Node)) :
  f ∉ l.*1 -> List.filter (fun entry => strict_eq (fst entry) (Some f)) l = [].
Proof.
  induction l as [|[k v] l IH]; [done|]. intros Hf.
  rewrite list_filter_cons.
  change (strict_eq (k, v).1 (Some f)) with (String.eqb k f).
  destruct (String.eqb_spec k f) as [->|Hne]; [set_solver|].
  apply IH. set_solver.
Qed.

Lemma filter_key_unique (f : string) (n : Node) (l : list (string * Node)) :
  NoDup l.*1 -> (f, n) ∈ l ->
  List.filter (fun entry => strict_eq (fst entry) (Some f)) l = [(f, n)].
Proof.
  induction l as [|[k v] l IH]; [by intros _ ?%elem_of_nil|].
  intros [Hk Hnd]%NoDup_cons Hin.
  rewrite list_filter_cons.
  change (strict_eq (k, v).1 (Some f)) with (String.eqb k f).
  destruct (String.eqb_spec k f) as [->|Hne].
  - rewrite filter_key_absent by done.
    apply elem_of_cons in Hin as [[= ->]|Hin]; [done|].
    exfalso. apply Hk. apply list_elem_of_fmap. by exists (f, n).
  - apply IH; [done|]. apply elem_of_cons in Hin as [[= ? ?]|Hin]; [congruence|done].
Qed.

(** X16. In every reachable state the memory map draws every link (no link
    has a missing end) and draws exactly one box as active, the box of the
    focus. *)
Theorem reachable_map_is_complete d :
  reachable d ->
  (forall l, l ∈ links (memory d) -> link_drawn (memory d) l = true) /\
  exists f n,
    focus d = Some f /\ active_boxes (memory d) (focus d) = [(f, n)].
Proof.
  intros (_ & Hl & (f & Hf & Hfd) & _)%reachable_well_formed. split.
  - intros l [Hs Ht]%Hl. unfold link_drawn.
    apply elem_of_dom in Hs, Ht.
    by rewrite !bool_decide_eq_true_2.
  - apply elem_of_dom in Hfd as [n Hn]. exists f, n. split; [done|].
    rewrite Hf. unfold active_boxes. apply filter_key_unique.
    + apply NoDup_fst_map_to_list.
    + by apply elem_of_map_to_list.
Qed.

Lemma reachable_map_is_complete_witness :
  let d := steps initialSimState (replicate 5 0%Q) in
  reachable d /\
  (forall l, l ∈ links (memory d) -> link_drawn (memory d) l = true) /\
  exists f n,
    focus d = Some f /\ active_boxes (memory d) (focus d) = [(f, n)].
Proof.
  intros d. split; [apply (reachable_all_fail 5)|].
  exact (reachable_map_is_complete d (reachable_all_fail 5)).
Defined.

(** ** Sub-concepts are created once *)

Lemma unbroken_initial : unbroken initialSimState.
Proof.
  split; [|split]; simpl.
  - intros k Hk. by left.
  - by apply NoDup_singleton.
  - intros g c a ->%list_elem_of_singleton _ Hc.
    assert (c = "belief system") as -> by (vm_compute in Hc; congruence).
    apply not_elem_of_dom. apply initial_nodes_not_sub.
Qed.

Lemma sub_not_initial c a : c +:+ sub_suffix a ∉ dom initial_nodes.
Proof. apply not_elem_of_dom, initial_nodes_not_sub. Qed.

Lemma sub_of_sub_is_new (m : gmap string Node) c a b :
  (forall k, k ∈ dom m ->
     k ∈ dom initial_nodes \/ exists c' a', c' ∈ dom m /\ k = c' +:+ sub_suffix a') ->
  c +:+ sub_suffix a ∉ dom m ->
  (c +:+ sub_suffix a) +:+ sub_suffix b ∉ dom m.
Proof.
  intros Hclosed Hc Hin.
  destruct (Hclosed _ Hin) as [Hi|(c' & a' & Hc' & He)].
  - by apply sub_not_initial in Hi.
  - apply sub_suffix_inj in He as [<- _]. done.
Qed.

Lemma cycle_unbroken d rnd d' :
  well_formed d ->
  unbroken d ->
  returned (runSimulationCycle d rnd) = Some d' ->
  unbroken d'.
Proof.
  intros (Hnames & _ & (f & Hfoc & Hfd) & Hgoals) (Hclosed & Hnodup & Hfresh) Hret.
  cycle_cases d rnd as Hrun; rewrite Hrun in Hret; simpl in Hret;
    try discriminate; injection Hret as <-;
    (split; [|split]); simpl; rewrite ?Ha in *; try done.
  - (* the expand goal is the only goal *)
    by apply NoDup_singleton.
  - intros g c a ->%list_elem_of_singleton Hk _. exfalso. apply Hk.
    rewrite Hfoc. simpl. destruct (Hnames f Hfd) as (_ & ? & ?).
    by apply goal_kind_expand_goal.
  - (* escalation: same concept at the head *)
    simpl in Hnodup.
    rewrite (goal_concept_break_down_goal c) by (by eapply goal_concept_plain).
    by rewrite <- Hc.
  - intros g' c' a [-> | Hin]%elem_of_cons Hk' Hc'.
    + rewrite (goal_concept_break_down_goal c) in Hc'
        by (by eapply goal_concept_plain).
      injection Hc' as <-. apply (Hfresh g c a); [set_solver| |done].
      rewrite Hk. discriminate.
    + apply (Hfresh g' c' a); [set_solver|done..].
  - (* success: the head leaves, the nodes keep their names *)
    intros k. rewrite dom_insert_L. apply elem_of_dom_2 in Hn.
    intros Hin. destruct (Hclosed k) as [?|(c' & a' & ? & ?)]; [set_solver|by left|].
    right. exists c', a'. split; [set_solver|done].
  - simpl in Hnodup. by apply NoDup_cons in Hnodup as [_ ?].
  - intros g' c' a Hin Hk' Hc'. rewrite dom_insert_L. apply elem_of_dom_2 in Hn.
    assert (c' +:+ sub_suffix a ∉ dom (nodes (memory d)))
      by (apply (Hfresh g' c' a); [set_solver|done..]).
    set_solver.
  - (* break-down *)
    intros k. rewrite !dom_insert_L. apply elem_of_dom_2 in Hn.
    intros [->%elem_of_singleton
           | [->%elem_of_singleton | Hin]%elem_of_union]%elem_of_union.
    + right. exists c, true. split; [set_solver|done].
    + right. exists c, false. split; [set_solver|done].
    + destruct (Hclosed k Hin) as [?|(c' & a' & ? & ?)]; [by left|].
      right. exists c', a'. split; [set_solver|done].
  - assert (HA : c +:+ "-A" ∉ dom (nodes (memory d)))
      by (apply (Hfresh g c true); [set_solver|rewrite Hk; discriminate|done]).
    assert (HB : c +:+ "-B" ∉ dom (nodes (memory d)))
      by (apply (Hfresh g c false); [set_solver|rewrite Hk; discriminate|done]).
    assert (Hplain : plain c = true) by (by eapply goal_concept_plain).
    assert (Hrest : forall c', Some c' ∈ goal_concept <$> rest ->
                      c' ∈ dom (nodes (memory d))).
    { intros c' (g' & Hg' & Hin)%list_elem_of_fmap.
      destruct (Hgoals g') as (c0 & Hc0 & Hs); [set_solver|].
      rewrite (sentence_concept c0 g') in Hg' by (done || apply Hnames, Hc0).
      by injection Hg' as ->. }
    simpl in Hnodup. apply NoDup_cons in Hnodup as [_ Hnodup].
    rewrite (goal_concept_deepen_goal (c +:+ "-A")) by (by apply plain_sub_A).
    rewrite (goal_concept_deepen_goal (c +:+ "-B")) by (by apply plain_sub_B).
    apply NoDup_cons. split.
    + intros [[= He] | Hin]%elem_of_cons; [by apply sub_A_ne_B in He|].
      by apply Hrest in Hin.
    + apply NoDup_cons. split; [|done]. intros Hin. by apply Hrest in Hin.
  - assert (HA : c +:+ "-A" ∉ dom (nodes (memory d)))
      by (apply (Hfresh g c true); [set_solver|rewrite Hk; discriminate|done]).
    assert (HB : c +:+ "-B" ∉ dom (nodes (memory d)))
      by (apply (Hfresh g c false); [set_solver|rewrite Hk; discriminate|done]).
    assert (Hplain : plain c = true) by (by eapply goal_concept_plain).
    simpl in Hnodup. rewrite Hc in Hnodup. apply NoDup_cons in Hnodup as [Hhead _].
    intros g' c' a. rewrite !dom_insert_L.
    intros [-> | [-> | Hin]%elem_of_cons]%elem_of_cons Hk' Hc'.
    + rewrite (goal_concept_deepen_goal (c +:+ "-A")) in Hc' by (by apply plain_sub_A).
      injection Hc' as <-.
      pose proof (sub_of_sub_is_new _ c true a Hclosed HA) as Hnew.
      pose proof (sub_suffix_ne_parent (c +:+ "-A") a) as Hne1.
      assert (Hne2 : (c +:+ "-A") +:+ sub_suffix a <> c +:+ "-B").
      { intros [He _]%(sub_suffix_inj _ c a false).
        by apply (sub_suffix_ne_parent c true) in He. }
      set_solver.
    + rewrite (goal_concept_deepen_goal (c +:+ "-B")) in Hc' by (by apply plain_sub_B).
      injection Hc' as <-.
      pose proof (sub_of_sub_is_new _ c false a Hclosed HB) as Hnew.
      pose proof (sub_suffix_ne_parent (c +:+ "-B") a) as Hne1.
      assert (Hne2 : (c +:+ "-B") +:+ sub_suffix a <> c +:+ "-A").
      { intros [He _]%(sub_suffix_inj _ c a true).
        by apply (sub_suffix_ne_parent c false) in He. }
      set_solver.
    + assert (Hold : c' +:+ sub_suffix a ∉ dom (nodes (memory d)))
        by (apply (Hfresh g' c' a); [set_solver|done..]).
      assert (Hcc : c' <> c).
      { intros ->. apply Hhead. apply list_elem_of_fmap. by exists g'. }
      assert (Hne1 : c' +:+ sub_suffix a <> c +:+ "-A")
        by (by intros [? _]%(sub_suffix_inj c' c a true)).
      assert (Hne2 : c' +:+ sub_suffix a <> c +:+ "-B")
        by (by intros [? _]%(sub_suffix_inj c' c a false)).
      set_solver.
Qed.

Lemma reachable_unbroken d : reachable d -> unbroken d.
Proof.
  induction 1 as [|d rnd d' Hd IH H0 H1 Hret]; [apply unbroken_initial|].
  eapply cycle_unbroken; [by apply reachable_well_formed|done..].
Qed.

(** X17. In every reachable state whose queue is headed by a goal read as
    break-down of [c], neither [c-A] nor [c-B] is a node yet, so the press
    returns a state with exactly these two names new and two more nodes than
    before: from the initial snapshot no sub-concept is ever created twice. *)
Theorem reachable_break_down_is_fresh d rnd g rest c :
  reachable d ->
  active (goals d) = g :: rest ->
  goal_kind g = BreakDownConcept ->
  goal_concept g = Some c ->
  nodes (memory d) !! (c +:+ "-A") = None /\
  nodes (memory d) !! (c +:+ "-B") = None /\
  exists d',
    returned (runSimulationCycle d rnd) = Some d' /\
    new_nodes d d' = {[c +:+ "-A"; c +:+ "-B"]} /\
    size (nodes (memory d')) = (size (nodes (memory d)) + 2)%nat.
Proof.
  intros Hd Ha Hk Hc.
  pose proof (reachable_well_formed d Hd) as (Hnames & _ & _ & Hgoals).
  pose proof (reachable_unbroken d Hd) as (_ & _ & Hfresh).
  assert (Hkind : goal_kind g <> Unhandled) by (rewrite Hk; discriminate).
  assert (Hin : g ∈ active (goals d)) by (rewrite Ha; set_solver).
  pose proof (Hfresh g c true Hin Hkind Hc) as HA.
  pose proof (Hfresh g c false Hin Hkind Hc) as HB.
  simpl in HA, HB.
  assert (Hnode : c ∈ dom (nodes (memory d))).
  { destruct (Hgoals g Hin) as (c0 & Hc0 & Hs).
    rewrite (sentence_concept c0 g) in Hc by (done || apply Hnames, Hc0).
    by injection Hc as <-. }
  apply elem_of_dom in Hnode as [p Hp].
  pose proof (sub_A_ne_B c c) as HAB.
  split; [by apply not_elem_of_dom|]. split; [by apply not_elem_of_dom|].
  rewrite (cycle_break_down d rnd g rest c p Ha Hc Hk Hp). simpl.
  eexists. split; [reflexivity|]. unfold new_nodes. simpl. split.
  - rewrite !dom_insert_L. set_solver.
  - rewrite map_size_insert_None.
    + rewrite map_size_insert_None by by apply not_elem_of_dom. lia.
    + rewrite lookup_insert_ne by done. by apply not_elem_of_dom.
Qed.

Lemma reachable_break_down_is_fresh_witness :
  let d := steps initialSimState (replicate 9 0%Q) in
  reachable d /\
  active (goals d) =
    [break_down_goal "belief system-A"; deepen_goal "belief system-B"] /\
  nodes (memory d) !! "belief system-A-A" = None /\
  nodes (memory d) !! "belief system-A-B" = None /\
  exists d',
    returned (runSimulationCycle d 0) = Some d' /\
    new_nodes d d' = {["belief system-A-A"; "belief system-A-B"]} /\
    size (nodes (memory d')) = (size (nodes (memory d)) + 2)%nat.
Proof.
  intros d.
  assert (Ha : active (goals d) =
            [break_down_goal "belief system-A"; deepen_goal "belief system-B"])
    by (vm_compute; reflexivity).
  split; [apply (reachable_all_fail 9)|]. split; [exact Ha|].
  exact (reachable_break_down_is_fresh d 0%Q _ _ "belief system-A"
           (reachable_all_fail 9) Ha eq_refl eq_refl).
Defined.

(** X18. Across a press from a reachable state every node stays where it
    is, and a node that is understood stays understood: marking is the only
    change a press makes to an existing node. *)
Theorem reachable_nodes_persist d rnd d' :
  reachable d ->
  returned (runSimulationCycle d rnd) = Some d' ->
  forall k n, nodes (memory d) !! k = Some n ->
    exists n',
      nodes (memory d') !! k = Some n' /\
      node_x n' = node_x n /\ node_y n' = node_y n /\
      (understood n = true -> understood n' = true).
Proof.
  intros Hd Hret k n0 Hk0.
  pose proof (reachable_unbroken d Hd) as (_ & _ & Hfresh).
  cycle_cases d rnd as Hrun; rewrite Hrun in Hret; simpl in Hret;
    try discriminate; injection Hret as <-; simpl; try (by exists n0).
  - destruct (decide (k = c)) as [->|Hne].
    + rewrite lookup_insert_eq. eexists. split; [done|].
      rewrite Hn in Hk0. by injection Hk0 as <-.
    + rewrite lookup_insert_ne by done. by exists n0.
  - assert (Hkind : goal_kind g <> Unhandled) by (rewrite Hk; discriminate).
    assert (Hin : g ∈ g :: rest) by set_solver.
    pose proof (Hfresh g c true Hin Hkind Hc) as HA.
    pose proof (Hfresh g c false Hin Hkind Hc) as HB.
    simpl in HA, HB.
    apply elem_of_dom_2 in Hk0 as Hdom.
    rewrite !lookup_insert_ne by (intros <-; done).
    by exists n0.
Qed.

Lemma reachable_nodes_persist_witness :
  let d := steps initialSimState [9 # 10] in
  let d' := steps initialSimState [9 # 10; 3 # 4]%Q in
  reachable d /\
  returned (runSimulationCycle d (3 # 4)) = Some d' /\
  nodes (memory d) !! "belief system" = Some (mkNode 50 20 true) /\
  exists n',
    nodes (memory d') !! "belief system" = Some n' /\
    node_x n' = 50 /\ node_y n' = 20 /\
    (true = true -> understood n' = true).
Proof.
  intros d d'.
  assert (Hd : reachable d).
  { apply (reachable_steps initialSimState [9 # 10]); [apply reachable_init|].
    constructor; [|constructor]. split; [by vm_compute|reflexivity]. }
  assert (Hret : returned (runSimulationCycle d (3 # 4)) = Some d')
    by (vm_compute; reflexivity).
  assert (Hn : nodes (memory d) !! "belief system" = Some (mkNode 50 20 true))
    by (vm_compute; reflexivity).
  split; [exact Hd|]. split; [exact Hret|]. split; [exact Hn|].
  exact (reachable_nodes_persist d (3 # 4) d' Hd Hret _ _ Hn).
Defined.

(** ** Navigation *)

Lemma handleHashChange_nonempty h : handleHashChange h <> EmptyString.
Proof. unfold handleHashChange. by destruct (remove_first "#" h). Qed.

(** X19. Whatever the location hash, the section selected is not empty, a
    hash made of the hash sign and a name selects that name, and the sidebar
    agrees with the page drawn: either exactly one entry is highlighted and
    the page is the one that entry opens, or the hash names no section, no
    entry is highlighted and the introduction is drawn. *)
Theorem sidebar_agrees_with_page location_hash :
  let section := handleHashChange location_hash in
  section <> EmptyString /\
  (forall a name,
     location_hash = String "#" (String a name) -> section = String a name) /\
  ((exists page, highlighted section = [(section, page)] /\
                 renderSection section = page) \/
   (highlighted section = [] /\ renderSection section = Home /\
    section ∉ sidebar_entries.*1)).
Proof.
  intros section. split; [apply handleHashChange_nonempty|]. split.
  - intros a name ->. reflexivity.
  - unfold highlighted, renderSection, sidebar_entries. simpl.
    destruct (String.eqb_spec section "home") as [->|H1]; [left; by eexists|].
    destruct (String.eqb_spec section "architecture") as [->|H2];
      [left; by eexists|].
    destruct (String.eqb_spec section "simulation") as [->|H3];
      [left; by eexists|].
    destruct (String.eqb_spec section "findings") as [->|H4];
      [left; by eexists|].
    right. split; [done|]. split; [done|]. set_solver.
Qed.
